(** * Employee directory service: query translation, record normalisation, seeding

    A shallow embedding of [main.py].  The three handlers of the service
    ([test_database], [list_employees], [seed_employees]) are written as
    programs over the calls they make to the document store, so that what a
    handler asks of the store, and in which order, can be read off the program.

    Conventions.
    - A Python [str] is a [string] holding its UTF-8 bytes.
    - A Python [dict] with string keys is a [gmap string _].
    - A Python [int] is a [Z].
    - The [database] module ([db], [get_documents], [create_document]) and the
      store behind it are not part of [main.py]: the handlers are programs over
      an arbitrary store, see [store] and [run]. *)

From Stdlib Require Import ZArith NArith Ascii String.
From stdpp Require Import gmap strings list fin_maps.

Local Open Scope Z_scope.

(* ===================================================================== *)
(** ** Python strings *)
(* ===================================================================== *)

Module PyStr.

Definition byte (c : ascii) : N := N_of_ascii c.

(** [bool(s)]: a string is true when it is not empty. *)
Definition truthy (s : string) : bool :=
  match s with
  | EmptyString => false
  | String _ _ => true
  end.

(** [s.split(sep)] for a one-character separator: the pieces between the
    separators, empty pieces included; never the empty list. *)
Fixpoint split (sep : ascii) (s : string) : list string :=
  match s with
  | EmptyString => [EmptyString]
  | String c r =>
      if Ascii.eqb c sep then EmptyString :: split sep r
      else match split sep r with
           | p :: ps => String c p :: ps
           | [] => [String c EmptyString]
           end
  end.

(** [sep.join(pieces)]. *)
Fixpoint join (sep : string) (pieces : list string) : string :=
  match pieces with
  | [] => EmptyString
  | [p] => p
  | p :: ps => p +:+ sep +:+ join sep ps
  end.

(** The white space of [str.strip()]: the code points U+0009..U+000D,
    U+001C..U+0020, U+0085, U+00A0, U+1680, U+2000..U+200A, U+2028, U+2029,
    U+202F, U+205F and U+3000, here by the bytes of their encoding. *)
Definition space1 (a : ascii) : bool :=
  let n := byte a in
  ((9 <=? n) && (n <=? 13) || (28 <=? n) && (n <=? 32))%N.

Definition space2 (a b : ascii) : bool :=
  ((byte a =? 194) && ((byte b =? 133) || (byte b =? 160)))%N.

Definition space3 (a b c : ascii) : bool :=
  ((byte a =? 225) && (byte b =? 154) && (byte c =? 128)
   || (byte a =? 226) && (byte b =? 128)
      && ((128 <=? byte c) && (byte c <=? 138)
          || (byte c =? 168) || (byte c =? 169) || (byte c =? 175))
   || (byte a =? 226) && (byte b =? 129) && (byte c =? 159)
   || (byte a =? 227) && (byte b =? 128) && (byte c =? 128))%N.

(** White space removed at the left end. *)
Fixpoint lstrip (s : string) : string :=
  match s with
  | EmptyString => EmptyString
  | String a r1 =>
      if space1 a then lstrip r1
      else match r1 with
           | String b r2 =>
               if space2 a b then lstrip r2
               else match r2 with
                    | String c r3 => if space3 a b c then lstrip r3 else s
                    | EmptyString => s
                    end
           | EmptyString => s
           end
  end.

(** The same on the reversed string: the bytes of a character come last
    byte first. *)
Fixpoint lstrip_rev (s : string) : string :=
  match s with
  | EmptyString => EmptyString
  | String a r1 =>
      if space1 a then lstrip_rev r1
      else match r1 with
           | String b r2 =>
               if space2 b a then lstrip_rev r2
               else match r2 with
                    | String c r3 => if space3 c b a then lstrip_rev r3 else s
                    | EmptyString => s
                    end
           | EmptyString => s
           end
  end.

Definition rstrip (s : string) : string :=
  String.rev (lstrip_rev (String.rev s)).

(** [s.strip()]. *)
Definition strip (s : string) : string := rstrip (lstrip s).

(** [s] begins with a white space character. *)
Definition leading_space (s : string) : bool :=
  match s with
  | String a (String b (String c _)) => space1 a || space2 a b || space3 a b c
  | String a (String b EmptyString) => space1 a || space2 a b
  | String a EmptyString => space1 a
  | EmptyString => false
  end.

(** The same for a reversed string. *)
Definition leading_space_rev (s : string) : bool :=
  match s with
  | String a (String b (String c _)) => space1 a || space2 b a || space3 c b a
  | String a (String b EmptyString) => space1 a || space2 b a
  | String a EmptyString => space1 a
  | EmptyString => false
  end.

(** [s] ends with a white space character. *)
Definition trailing_space (s : string) : bool :=
  leading_space_rev (String.rev s).

(** ASCII lower case, the folding used to compare without case. *)
Definition lower_char (c : ascii) : ascii :=
  let n := byte c in
  if ((65 <=? n) && (n <=? 90))%N then ascii_of_N (n + 32) else c.

Fixpoint lower (s : string) : string :=
  match s with
  | EmptyString => EmptyString
  | String c r => String (lower_char c) (lower r)
  end.

(** [p] is a prefix of [s]. *)
Fixpoint prefixb (p s : string) : bool :=
  match p, s with
  | EmptyString, _ => true
  | String a p', String b s' => Ascii.eqb a b && prefixb p' s'
  | String _ _, EmptyString => false
  end.

(** [p in s]: [p] occurs in [s] as a substring. *)
Fixpoint substringb (p s : string) : bool :=
  prefixb p s ||
  match s with
  | EmptyString => false
  | String _ s' => substringb p s'
  end.

(** [q] occurs in [s] when case is ignored. *)
Definition ci_substring (q s : string) : bool :=
  substringb (lower q) (lower s).

(** A continuation byte of a multi-byte character (10xxxxxx). *)
Definition continuation (c : ascii) : bool :=
  ((128 <=? byte c) && (byte c <=? 191))%N.

(** [s[:n]]: the first [n] characters (not bytes) of [s]. *)
Fixpoint take_chars (n : nat) (s : string) : string :=
  match s with
  | EmptyString => EmptyString
  | String c r =>
      if continuation c then String c (take_chars n r)
      else match n with
           | O => EmptyString
           | S n' => String c (take_chars n' r)
           end
  end.

(** Fixed-width lower-case hexadecimal, most significant digit first. *)
Definition hex_digit (n : N) : ascii :=
  (if n <? 10 then ascii_of_N (48 + n) else ascii_of_N (87 + n))%N.

Fixpoint hex (width : nat) (n : N) : string :=
  match width with
  | O => EmptyString
  | S w => hex w (n / 16) +:+ String (hex_digit (n mod 16)) EmptyString
  end.

End PyStr.

(* ===================================================================== *)
(** ** Documents and filter expressions *)
(* ===================================================================== *)

(** The values a record of the directory holds: [None], booleans, strings, the
    store's [ObjectId] (a 96-bit number) and lists of strings (the tags). *)
Inductive value : Type :=
| VNone
| VBool (b : bool)
| VStr (s : string)
| VObjectId (oid : N)
| VList (l : list string).

#[global] Instance value_eq_dec : EqDecision value.
Proof. solve_decision. Defined.

(** A document is a [dict] from field names to values. *)
Abbreviation document := (gmap string value).

(** What a filter expression says of one field:
    [{field: v}], [{field: {"$regex": p, "$options": o}}] and
    [{field: {"$all": vs}}]. *)
Inductive cond : Type :=
| CEq (v : value)
| CRegex (pattern options : string)
| CAll (vs : list string).

(** An entry of the filter [dict]: a condition on the field named by the key,
    or, under the key ["$or"], a list of one-field filters. *)
Inductive clause : Type :=
| Field (c : cond)
| Or (alternatives : list (string * cond)).

#[global] Instance cond_eq_dec : EqDecision cond.
Proof. solve_decision. Defined.

#[global] Instance clause_eq_dec : EqDecision clause.
Proof. solve_decision. Defined.

Abbreviation filter_query := (gmap string clause).

(* ===================================================================== *)
(** ** Handlers as programs over the store *)
(* ===================================================================== *)

Inductive exn : Type :=
| HTTPException (status_code : Z) (detail : string)
  (** raised by the handlers themselves *)
| RequestValidationError (param : string)
  (** raised by the framework when a declared constraint of a query parameter
      fails, before the handler's body runs *)
| StoreError (msg : string)
  (** any exception coming out of the [database] module; [msg] is [str(e)] *).

#[global] Instance exn_eq_dec : EqDecision exn.
Proof. solve_decision. Defined.

(** What a call into the [database] module gives back: a value, or an
    exception [e], kept as its message [str(e)]. *)
Inductive answer (A : Type) : Type :=
| Returned (v : A)
| Raised (msg : string).

Arguments Returned {A} v.
Arguments Raised {A} msg.

(** A handler either returns, raises, or calls the [database] module and goes
    on with the answer. *)
Inductive prog (R : Type) : Type :=
| Ret (r : R)
| Raise (e : exn)
| GetDocuments (collection_name : string) (filter_dict : filter_query)
    (limit : Z) (k : answer (list document) → prog R)
| CreateDocument (collection_name : string) (data : document)
    (k : answer string → prog R)
| ListCollectionNames (k : answer (list string) → prog R).

Arguments Ret {R} r.
Arguments Raise {R} e.
Arguments GetDocuments {R} collection_name filter_dict limit k.
Arguments CreateDocument {R} collection_name data k.
Arguments ListCollectionNames {R} k.

Fixpoint bind {A B : Type} (p : prog A) (f : A → prog B) : prog B :=
  match p with
  | Ret r => f r
  | Raise e => Raise e
  | GetDocuments c fq n k => GetDocuments c fq n (λ a, bind (k a) f)
  | CreateDocument c d k => CreateDocument c d (λ a, bind (k a) f)
  | ListCollectionNames k => ListCollectionNames (λ a, bind (k a) f)
  end.

#[global] Instance prog_ret : MRet prog := @Ret.
#[global] Instance prog_bind : MBind prog := λ A B f p, bind p f.

(** [try: p except Exception: ...]: an exception of [p] becomes a value. *)
Fixpoint try_ {A : Type} (p : prog A) : prog (exn + A) :=
  match p with
  | Ret r => Ret (inr r)
  | Raise e => Ret (inl e)
  | GetDocuments c fq n k => GetDocuments c fq n (λ a, try_ (k a))
  | CreateDocument c d k => CreateDocument c d (λ a, try_ (k a))
  | ListCollectionNames k => ListCollectionNames (λ a, try_ (k a))
  end.

(** An exception of a call goes up when nothing catches it. *)
Definition reraise {A : Type} (a : answer A) : prog A :=
  match a with
  | Returned v => Ret v
  | Raised msg => Raise (StoreError msg)
  end.

Definition get_documents (collection_name : string) (filter_dict : filter_query)
    (limit : Z) : prog (list document) :=
  GetDocuments collection_name filter_dict limit reraise.

Definition create_document (collection_name : string) (data : document)
    : prog string :=
  CreateDocument collection_name data reraise.

(** *** Running a program against a store *)

(** A store with states [S].  Each operation gives its answer and the next
    state. *)
Record store (S : Type) : Type := {
  find : string → filter_query → Z → S → answer (list document) * S;
  insert_one : string → document → S → answer string * S;
  collection_names : S → answer (list string) * S
}.

Arguments find {S}.
Arguments insert_one {S}.
Arguments collection_names {S}.

(** One interaction with the store: the call and its answer. *)
Inductive event : Type :=
| EvFind (collection_name : string) (filter_dict : filter_query) (limit : Z)
    (a : answer (list document))
| EvInsert (collection_name : string) (data : document) (a : answer string)
| EvNames (a : answer (list string)).

Record outcome (S R : Type) : Type := {
  result : exn + R;
  final : S;
  trace : list event
}.

Arguments result {S R}.
Arguments final {S R}.
Arguments trace {S R}.

Definition logged {S R : Type} (ev : event) (o : outcome S R) : outcome S R :=
  {| result := result o; final := final o; trace := ev :: trace o |}.

Fixpoint run {S R : Type} (st : store S) (p : prog R) (s : S) : outcome S R :=
  match p with
  | Ret r => {| result := inr r; final := s; trace := [] |}
  | Raise e => {| result := inl e; final := s; trace := [] |}
  | GetDocuments c fq n k =>
      let '(a, s') := find st c fq n s in
      logged (EvFind c fq n a) (run st (k a) s')
  | CreateDocument c d k =>
      let '(a, s') := insert_one st c d s in
      logged (EvInsert c d a) (run st (k a) s')
  | ListCollectionNames k =>
      let '(a, s') := collection_names st s in
      logged (EvNames a) (run st (k a) s')
  end.

(** The status of the HTTP response: 200 for a returned body, the exception's
    own status for an [HTTPException], 422 for a rejected parameter, 500 for
    any other exception. *)
Definition status {R : Type} (r : exn + R) : Z :=
  match r with
  | inr _ => 200
  | inl (HTTPException code _) => code
  | inl (RequestValidationError _) => 422
  | inl (StoreError _) => 500
  end.

(* ===================================================================== *)
(** ** The handlers of [main.py] *)
(* ===================================================================== *)

(** The global [db] of the [database] module: [None] when the store is not
    configured, else a handle.  Of the handle the handlers read only the
    attribute [name], which it may lack ([hasattr(db, 'name')]). *)
Record Database : Type := { name : option string }.

(** The body of [GET /api/employees]. *)
Record employee_list : Type := {
  items : list document;
  count : Z
}.

(** The body of [POST /api/employees/seed]. *)
Record seed_result : Type := { inserted : Z }.

(** The query parameters of [GET /api/employees] as the framework parsed
    them; [None] is a parameter that the request leaves out. *)
Module Request.
Record t : Type := {
  q : option string;
  department : option string;
  location : option string;
  isActive : option bool;
  tags : option string;
  limit : option Z
}.
End Request.

(** [if x:] for an [Optional[str]]: taken when [x] is neither [None] nor
    empty. *)
Definition given (x : option string) : option string :=
  match x with
  | Some s => if PyStr.truthy s then Some s else None
  | None => None
  end.

(** [Query(default=..., le=...)] on an [int] parameter. *)
Definition Query_le (default le : Z) (param : string) (raw : option Z) : exn + Z :=
  match raw with
  | None => inr default
  | Some n => if n <=? le then inr n else inl (RequestValidationError param)
  end.

(** [[t.strip() for t in tags.split(",") if t.strip()]] *)
Definition tag_list (tags : string) : list string :=
  omap (λ t, if PyStr.truthy (PyStr.strip t) then Some (PyStr.strip t) else None)
       (PyStr.split "," tags).

(** The filter that [list_employees] builds from its parameters
    (lines 94 to 121). *)
Definition build_filter (q department location : option string)
    (isActive : option bool) (tags : option string) : filter_query :=
  let filter_query : filter_query := ∅ in
  let filter_query :=
    match given q with
    | Some q =>
        <["$or" := Or [
            ("firstName", CRegex q "i");
            ("lastName", CRegex q "i");
            ("full_name", CRegex q "i");
            ("title", CRegex q "i");
            ("department", CRegex q "i");
            ("email", CRegex q "i");
            ("phone", CRegex q "i");
            ("location", CRegex q "i")
          ]]> filter_query
    | None => filter_query
    end in
  let filter_query :=
    match given department with
    | Some department => <["department" := Field (CEq (VStr department))]> filter_query
    | None => filter_query
    end in
  let filter_query :=
    match given location with
    | Some location => <["location" := Field (CEq (VStr location))]> filter_query
    | None => filter_query
    end in
  let filter_query :=
    match isActive with
    | Some isActive => <["isActive" := Field (CEq (VBool isActive))]> filter_query
    | None => filter_query
    end in
  let filter_query :=
    match given tags with
    | Some tags =>
        match tag_list tags with
        | [] => filter_query
        | tag_list => <["tags" := Field (CAll tag_list)]> filter_query
        end
    | None => filter_query
    end in
  filter_query.

Section Handlers.

(** Python's [repr] of a [str] (quoting and escaping).  Only [str] of a list
    uses it; it is left open. *)
Variable repr_str : string → string.

(** [str(v)] *)
Definition py_str (v : value) : string :=
  match v with
  | VNone => "None"
  | VBool true => "True"
  | VBool false => "False"
  | VStr s => s
  | VObjectId oid => PyStr.hex 24 oid
  | VList l => "[" +:+ PyStr.join ", " (repr_str <$> l) +:+ "]"
  end.

(** The body of the loop over [docs] (lines 127 and 128):
    [d["id"] = str(d.get("_id"))], then [d.pop("_id", None)]. *)
Definition normalize (d : document) : document :=
  let d := <["id" := VStr (py_str (default VNone (d !! "_id")))]> d in
  delete "_id" d.

(** [list_employees], with [limit] already checked by the framework. *)
Definition list_employees (db : option Database)
    (q department location : option string) (isActive : option bool)
    (tags : option string) (limit : Z) : prog employee_list :=
  match db with
  | None => Raise (HTTPException 500 "Database not configured")
  | Some _ =>
      let filter_query := build_filter q department location isActive tags in
      docs ← get_documents "employee" filter_query limit;
      let docs := normalize <$> docs in
      mret {| items := docs; count := Z.of_nat (length docs) |}
  end.

(** [GET /api/employees]: the framework checks [limit] against
    [Query(default=200, le=500)], then calls the handler. *)
Definition GET_api_employees (db : option Database) (r : Request.t)
    : prog employee_list :=
  match Query_le 200 500 "limit" (Request.limit r) with
  | inl e => Raise e
  | inr limit =>
      list_employees db (Request.q r) (Request.department r)
        (Request.location r) (Request.isActive r) (Request.tags r) limit
  end.

End Handlers.

(** The fixed sample of [seed_employees]. *)
Definition sample : list document := [
  {[ "firstName" := VStr "أمين";
     "lastName" := VStr "بن صالح";
     "full_name" := VStr "أمين بن صالح";
     "title" := VStr "مهندس نظم";
     "department" := VStr "IT";
     "email" := VStr "amine.bensaleh@example.com";
     "phone" := VStr "+213560000001";
     "office" := VStr "D3-201";
     "location" := VStr "Bab Ezzouar";
     "photoUrl" := VStr "https://i.pravatar.cc/150?img=1";
     "bio" := VStr "خبير في البنية التحتية والشبكات.";
     "tags" := VList ["Linux"; "Networking"; "DevOps"];
     "isActive" := VBool true ]};
  {[ "firstName" := VStr "ليلى";
     "lastName" := VStr "قاسم";
     "full_name" := VStr "ليلى قاسم";
     "title" := VStr "موارد بشرية";
     "department" := VStr "HR";
     "email" := VStr "leila.kacem@example.com";
     "phone" := VStr "+213560000002";
     "office" := VStr "D3-105";
     "location" := VStr "Bab Ezzouar";
     "photoUrl" := VStr "https://i.pravatar.cc/150?img=5";
     "bio" := VStr "تطوير المواهب وثقافة المؤسسة.";
     "tags" := VList ["Recruitment"; "Culture"];
     "isActive" := VBool true ]};
  {[ "firstName" := VStr "مروان";
     "lastName" := VStr "شرقي";
     "full_name" := VStr "مروان شرقي";
     "title" := VStr "محاسب";
     "department" := VStr "Finance";
     "email" := VStr "marouane.cherki@example.com";
     "phone" := VStr "+213560000003";
     "office" := VStr "D3-009";
     "location" := VStr "Bab Ezzouar";
     "photoUrl" := VStr "https://i.pravatar.cc/150?img=8";
     "bio" := VStr "إدارة الميزانيات والتقارير.";
     "tags" := VList ["Accounting"; "Excel"];
     "isActive" := VBool true ]}
].

(** The loop of [seed_employees] (lines 185 to 191): one insertion for each
    record, each in its own [try]; an exception leaves the counter as it
    is. *)
Fixpoint seed_loop (records : list document) (inserted : Z) : prog Z :=
  match records with
  | [] => mret inserted
  | s :: rest =>
      r ← try_ (create_document "employee" s);
      match r with
      | inr _ => seed_loop rest (inserted + 1)
      | inl _ => seed_loop rest inserted
      end
  end.

Definition seed_employees (db : option Database) : prog seed_result :=
  match db with
  | None => Raise (HTTPException 500 "Database not configured")
  | Some _ =>
      inserted ← seed_loop sample 0;
      mret {| inserted := inserted |}
  end.

(** [read_root] and [hello]: the two liveness markers. *)
Definition read_root : prog document :=
  mret {[ "message" := VStr "Hello from FastAPI Backend!" ]}.

Definition hello : prog document :=
  mret {[ "message" := VStr "Hello from the backend API!" ]}.

(** [test_database].  [from database import db] gives the global [db]: the
    module was imported when [main.py] was loaded, so the import inside the
    handler cannot fail, and of the statements in the outer [try] only
    [db.list_collection_names()] can raise, inside its own [try]: what
    follows the call is the [try] body on a value and the [except] body on
    an exception.
    [getenv] is [os.getenv]. *)
Definition test_database (db : option Database)
    (getenv : string → option string) : prog document :=
  let response : document :=
    {[ "backend" := VStr "✅ Running";
       "database" := VStr "❌ Not Available";
       "database_url" := VNone;
       "database_name" := VNone;
       "connection_status" := VStr "Not Connected";
       "collections" := VList [] ]} in
  response ←
    match db with
    | Some db =>
        let response := <["database" := VStr "✅ Available"]> response in
        let response := <["database_url" := VStr "✅ Configured"]> response in
        let response :=
          <["database_name" :=
              VStr (match name db with Some n => n | None => "✅ Connected" end)]>
            response in
        let response := <["connection_status" := VStr "Connected"]> response in
        ListCollectionNames (λ a,
          match a with
          | Returned collections =>
              let response :=
                <["collections" := VList (take 10 collections)]> response in
              mret (<["database" := VStr "✅ Connected & Working"]> response)
          | Raised msg =>
              mret (<["database" :=
                       VStr ("⚠️  Connected but Error: "
                             +:+ PyStr.take_chars 50 msg)]> response)
          end)
    | None =>
        mret (<["database" := VStr "⚠️  Available but not initialized"]> response)
    end;
  let response :=
    <["database_url" :=
        VStr (match given (getenv "DATABASE_URL") with
              | Some _ => "✅ Set"
              | None => "❌ Not Set"
              end)]> response in
  let response :=
    <["database_name" :=
        VStr (match given (getenv "DATABASE_NAME") with
              | Some _ => "✅ Set"
              | None => "❌ Not Set"
              end)]> response in
  mret response.

(* ===================================================================== *)
(** ** The store's side: which documents a filter selects *)
(* ===================================================================== *)

Module Mongo.

Section Matching.

(** The store's pattern operator behind ["$regex"]: [regex_search p o s] says
    whether the pattern [p], read with the options [o], finds a match
    somewhere in [s].  The handlers hand [q] to it as it comes. *)
Variable regex_search : string → string → string → bool.

(** The strings a field holds: the field itself, or the elements of a list. *)
Definition field_strings (d : document) (f : string) : list string :=
  match d !! f with
  | Some (VStr s) => [s]
  | Some (VList l) => l
  | _ => []
  end.

(** Modelled from the spec: the store's equality on a field ("exact equality
    match"); the store is not in [src/].  A list field matches a string that
    is one of its elements, and [None] matches a field that is not there. *)
Definition eq_match (v : value) (x : option value) : bool :=
  match x with
  | Some x =>
      bool_decide (x = v)
      || match x, v with
         | VList l, VStr s => bool_decide (s ∈ l)
         | _, _ => false
         end
  | None => bool_decide (v = VNone)
  end.

(** Modelled from the spec: the store's reading of a condition on the field
    [f] of [d]; the store is not in [src/].  ["$regex"] looks for a match in
    a string the field holds, ["$all"] asks for every listed value ("a
    superset of all listed values") and selects nothing on an empty list. *)
Definition eval_cond (d : document) (f : string) (c : cond) : bool :=
  match c with
  | CEq v => eq_match v (d !! f)
  | CRegex p o => existsb (regex_search p o) (field_strings d f)
  | CAll vs =>
      match vs with
      | [] => false
      | _ => forallb (λ t, eq_match (VStr t) (d !! f)) vs
      end
  end.

(** An entry of the filter: a condition on its key, or the disjunction of the
    alternatives under ["$or"]. *)
Definition eval_clause (d : document) (key : string) (cl : clause) : bool :=
  match cl with
  | Field c => eval_cond d key c
  | Or alternatives => existsb (λ fc, eval_cond d fc.1 fc.2) alternatives
  end.

(** The entries of a filter are combined with AND. *)
Definition matches (fq : filter_query) (d : document) : bool :=
  bool_decide (map_Forall (λ key cl, eval_clause d key cl = true) fq).

End Matching.

(** *** A pattern operator for patterns made of plain characters and [.] *)

Inductive atom : Type :=
| Lit (c : ascii)
| AnyChar.

(** The characters that a pattern does not read as themselves. *)
Definition metachar (c : ascii) : bool :=
  bool_decide (c ∈ list_ascii_of_string "\^$.[]|()?*+{}").

Fixpoint parse (p : string) : option (list atom) :=
  match p with
  | EmptyString => Some []
  | String c r =>
      if Ascii.eqb c "." then (AnyChar ::.) <$> parse r
      else if metachar c then None
      else (Lit c ::.) <$> parse r
  end.

Definition char_eq (ci : bool) (a b : ascii) : bool :=
  if ci then Ascii.eqb (PyStr.lower_char a) (PyStr.lower_char b)
  else Ascii.eqb a b.

(** The rest of [s] after the continuation bytes at its head. *)
Fixpoint skip_continuation (s : string) : string :=
  match s with
  | String c r => if PyStr.continuation c then skip_continuation r else s
  | EmptyString => EmptyString
  end.

(** The atoms match at the head of [s]; [.] takes one character that is not
    a line feed. *)
Fixpoint match_here (ci : bool) (atoms : list atom) (s : string) : bool :=
  match atoms, s with
  | [], _ => true
  | Lit c :: rest, String x s' => char_eq ci c x && match_here ci rest s'
  | AnyChar :: rest, String x s' =>
      negb (Ascii.eqb x "010") && match_here ci rest (skip_continuation s')
  | _ :: _, EmptyString => false
  end.

Fixpoint search (ci : bool) (atoms : list atom) (s : string) : bool :=
  match_here ci atoms s ||
  match s with
  | EmptyString => false
  | String _ s' => search ci atoms s'
  end.

(** Modelled from the spec: the "pattern-matching operator" that [q] is passed
    to "without escaping special characters"; the store is not in [src/].
    It covers the patterns built from plain characters and [.] (any one
    character); the option [i] ignores the case of ASCII letters.  Other
    patterns are outside this operator, which finds nothing for them. *)
Definition regex_lite (p options s : string) : bool :=
  match parse p with
  | Some atoms => search (PyStr.substringb "i" options) atoms s
  | None => false
  end.

(** *** A store in memory *)

Record state : Type := {
  collections : gmap string (list document);
  next_id : N
}.

(** Modelled from the spec: "find documents in a named collection matching a
    filter expression, capped at N results"; [get_documents] of the
    [database] module is not in [src/]. *)
Definition mem_find (c : string) (fq : filter_query) (n : Z) (s : state)
    : answer (list document) * state :=
  (Returned (take (Z.to_nat n)
               (filter (λ d, matches regex_lite fq d = true)
                       (default [] (collections s !! c)))), s).

(** Modelled from the spec: "insert one document into a named collection,
    returning its assigned identifier"; [create_document] of the [database]
    module is not in [src/]. *)
Definition mem_insert (c : string) (d : document) (s : state)
    : answer string * state :=
  let oid := next_id s in
  (Returned (PyStr.hex 24 oid),
   {| collections :=
        <[c := default [] (collections s !! c) ++ [<["_id" := VObjectId oid]> d]]>
          (collections s);
      next_id := (oid + 1)%N |}).

Definition mem_names (s : state) : answer (list string) * state :=
  (Returned (map fst (map_to_list (collections s))), s).

Definition mem : store state :=
  {| find := mem_find; insert_one := mem_insert; collection_names := mem_names |}.

Definition empty : state := {| collections := ∅; next_id := 1 |}.

(** A store whose insertions answer as a script says, one answer for each
    call, and which fails when the script is used up. *)
Definition scripted : store (list (answer string)) :=
  {| find := λ _ _ _ s, (Raised "no collection", s);
     insert_one := λ _ _ s,
       match s with
       | a :: rest => (a, rest)
       | [] => (Raised "script used up", [])
       end;
     collection_names := λ s, (Raised "no collection", s) |}.

End Mongo.

(* ===================================================================== *)
(** ** Notions used in the statements *)
(* ===================================================================== *)

(** [repr] of a string that has no quote, no backslash and no character that
    is not printable: the string between single quotes. *)
Definition repr_plain (s : string) : string := "'" +:+ s +:+ "'".

(** The limit a request asks for: its [limit], or the default. *)
Definition requested_limit (r : Request.t) : Z := default 200 (Request.limit r).

(** The store's find gives at most [n] documents when it is passed the cap
    [n]. *)
Definition caps_at {S : Type} (st : store S) (n : Z) : Prop :=
  ∀ c fq s docs s',
    find st c fq n s = (Returned docs, s') → Z.of_nat (length docs) ≤ n.

(** The identifier of a document is the store's own: an [ObjectId] under
    ["_id"]. *)
Definition store_assigned (d : document) : Prop :=
  ∃ oid, d !! "_id" = Some (VObjectId oid).

Definition has_object_id (d : document) : bool :=
  match d !! "_id" with
  | Some (VObjectId _) => true
  | _ => false
  end.

(** Every document that the store's find gives in the state [s] carries the
    store's identifier. *)
Definition assigns_ids {S : Type} (st : store S) (s : S) : Prop :=
  ∀ c fq n docs s',
    find st c fq n s = (Returned docs, s') → Forall store_assigned docs.

(** The fields that the free-text search looks at. *)
Definition search_fields : list string :=
  ["firstName"; "lastName"; "full_name"; "title"; "department"; "email";
   "phone"; "location"].

(** The field [f] of [d] contains [q] as a substring when case is ignored. *)
Definition contains_ci (q : string) (d : document) (f : string) : Prop :=
  ∃ s, s ∈ Mongo.field_strings d f ∧ PyStr.ci_substring q s = true.

(** A pattern in which every character stands for itself. *)
Definition plain (q : string) : Prop :=
  Forall (λ c, Mongo.metachar c = false) (list_ascii_of_string q).

(** The insertion gave an identifier back. *)
Definition returned {A : Type} (a : answer A) : bool :=
  match a with
  | Returned _ => true
  | Raised _ => false
  end.

(** How many of the answers to the insertions are successes. *)
Definition successes (answers : list (answer string)) : nat :=
  length (List.filter returned answers).

(** The answers that the store gives to the insertions of [records] into
    [employee], one after the other, from the state [s]. *)
Fixpoint insert_answers {S : Type} (st : store S) (records : list document)
    (s : S) : list (answer string) :=
  match records with
  | [] => []
  | d :: rest =>
      let '(a, s') := insert_one st "employee" d s in
      a :: insert_answers st rest s'
  end.

(** The number of characters of a string: its bytes that do not continue a
    character. *)
Fixpoint char_count (s : string) : nat :=
  match s with
  | EmptyString => O
  | String c r =>
      if PyStr.continuation c then char_count r else Datatypes.S (char_count r)
  end.

(** The keys of the body of [test_database]. *)
Definition diagnostic_keys : gset string :=
  {[ "backend"; "database"; "database_url"; "database_name";
     "connection_status"; "collections" ]}.

(** What the diagnostic body says of an environment variable. *)
Definition env_report (v : option string) : value :=
  match v with
  | Some (String _ _) => VStr "✅ Set"
  | _ => VStr "❌ Not Set"
  end.

(** The keys a filter can have. *)
Definition filter_keys : gset string :=
  {[ "$or"; "department"; "location"; "isActive"; "tags" ]}.

(** A parameter of a second request is the one of the first, or left out. *)
Definition kept_or_dropped {A : Type} (x y : option A) : Prop :=
  y = x ∨ y = None.

(** A string made of white space characters only. *)
Fixpoint blank (s : string) : bool :=
  match s with
  | EmptyString => true
  | String a r1 =>
      PyStr.space1 a && blank r1
      || match r1 with
         | String b r2 =>
             PyStr.space2 a b && blank r2
             || match r2 with
                | String c r3 => PyStr.space3 a b c && blank r3
                | EmptyString => false
                end
         | EmptyString => false
         end
  end.

(** A request with every parameter left out, and a store handle. *)
Definition no_params : Request.t :=
  {| Request.q := None; Request.department := None; Request.location := None;
     Request.isActive := None; Request.tags := None; Request.limit := None |}.

Definition handle : Database := {| name := Some "directory" |}.

(** The body of an outcome that has one (an empty body stands for none). *)
Definition body {S : Type} (o : outcome S employee_list) : employee_list :=
  match result o with
  | inr resp => resp
  | inl _ => {| items := []; count := 0 |}
  end.

(** A store in memory that holds one record whose ["_id"] is the empty
    string, as a direct insertion with an identifier of the client's
    choosing leaves it. *)
Definition with_empty_id : Mongo.state :=
  {| Mongo.collections :=
       {[ "employee" :=
            [ ({[ "_id" := VStr ""; "firstName" := VStr "Nadia" ]} : document) ] ]};
     Mongo.next_id := 1 |}.

(** The store in memory after one seeding. *)
Definition seeded : Mongo.state :=
  final (run Mongo.mem (seed_employees (Some handle)) Mongo.empty).

(* ===================================================================== *)
(** ** Properties *)
(* ===================================================================== *)

(** *** What a run of [list_employees] looks like *)

Section ListRuns.

Context {S : Type} (repr_str : string → string) (st : store S).

(** With a store handle, [list_employees] makes one call to the store, with
    the filter built from the parameters and the limit as given, and
    normalizes what comes back. *)
Lemma run_list_employees h q department location isActive tags limit s :
  run st (list_employees repr_str (Some h) q department location isActive
            tags limit) s
  = let fq := build_filter q department location isActive tags in
    let a := (find st "employee" fq limit s).1 in
    {| result :=
         match a with
         | Returned docs =>
             inr {| items := normalize repr_str <$> docs;
                    count := Z.of_nat (length (normalize repr_str <$> docs)) |}
         | Raised msg => inl (StoreError msg)
         end;
       final := (find st "employee" fq limit s).2;
       trace := [EvFind "employee" fq limit a] |}.
Proof.
  cbn. destruct (find st "employee" _ limit s) as [[docs|msg] s']; reflexivity.
Qed.

(** A successful run of the route: the limit passed the check, there was a
    handle, and the store answered with documents. *)
Lemma run_route_success db r s resp :
  result (run st (GET_api_employees repr_str db r) s) = inr resp →
  ∃ limit docs s',
    Query_le 200 500 "limit" (Request.limit r) = inr limit
    ∧ find st "employee"
        (build_filter (Request.q r) (Request.department r) (Request.location r)
           (Request.isActive r) (Request.tags r)) limit s = (Returned docs, s')
    ∧ resp = {| items := normalize repr_str <$> docs;
                count := Z.of_nat (length (normalize repr_str <$> docs)) |}.
Proof.
  unfold GET_api_employees.
  destruct (Query_le 200 500 "limit" (Request.limit r)) as [e|limit] eqn:Hq;
    [discriminate|].
  destruct db as [h|]; [|discriminate].
  rewrite run_list_employees. cbv zeta.
  destruct (find st "employee" _ limit s) as [[docs|msg] s'] eqn:Hf; cbn;
    [|discriminate].
  intros [= <-]. exists limit, docs, s'. done.
Qed.

End ListRuns.

(** The limit that passes the check is the requested one, or 200, and is at
    most 500. *)
Lemma Query_le_limit raw limit :
  Query_le 200 500 "limit" raw = inr limit →
  limit = default 200 raw ∧ limit ≤ 500.
Proof.
  unfold Query_le. destruct raw as [n|]; cbn.
  - destruct (Z.leb_spec n 500); [|discriminate]. intros [= <-]. done.
  - intros [= <-]. done.
Qed.

(** The store in memory never gives more than a cap that is not negative. *)
Lemma mem_caps n : 0 ≤ n → caps_at Mongo.mem n.
Proof.
  intros Hn c fq s docs s' [= <- _].
  rewrite length_take. lia.
Qed.

(** After seeding, the store in memory gives only documents that carry the
    store's identifier. *)
Lemma mem_assigns_ids_seeded : assigns_ids Mongo.mem seeded.
Proof.
  intros c fq n docs s' [= <- _].
  apply Forall_take, Forall_forall.
  intros d [_ Hd]%list_elem_of_filter.
  assert (forallb has_object_id (default [] (Mongo.collections seeded !! c))
          = true) as Hall.
  { destruct (decide (c = "employee")) as [->|Hc]; [vm_compute; reflexivity|].
    replace (Mongo.collections seeded !! c) with (@None (list document));
      [reflexivity|].
    symmetry. unfold seeded. cbn. rewrite !lookup_insert_ne by done. done. }
  rewrite forallb_forall in Hall. apply list_elem_of_In, Hall in Hd.
  unfold has_object_id in Hd. unfold store_assigned.
  destruct (d !! "_id") as [[| | |oid|]|]; try discriminate. by exists oid.
Qed.

(** *** The response envelope *)

(** C9: in every successful response of the list operation, [count] is the
    number of elements of [items]. *)
Theorem count_is_length {S : Type} (repr_str : string → string) (st : store S)
    (db : option Database) (r : Request.t) (s : S) (resp : employee_list) :
  result (run st (GET_api_employees repr_str db r) s) = inr resp →
  count resp = Z.of_nat (length (items resp)).
Proof.
  intros (limit & docs & s' & _ & _ & ->)%run_route_success. reflexivity.
Qed.

Lemma count_is_length_witness :
  let o := run Mongo.mem (GET_api_employees repr_plain (Some handle) no_params)
             seeded in
  result o = inr (body o)
  ∧ count (body o) = Z.of_nat (length (items (body o))).
Proof.
  intros o.
  assert (result o = inr (body o)) as H by (vm_compute; reflexivity).
  split; [exact H|].
  exact (count_is_length repr_plain Mongo.mem (Some handle) no_params seeded _ H).
Defined.

(** *** The limit *)

(** C4: for every request that the list operation answers, the number of
    items is at most the requested limit (200 when the request gives none)
    and at most 500, given that the store's find gives at most the cap it is
    passed. *)
Theorem items_within_limit {S : Type} (repr_str : string → string)
    (st : store S) (db : option Database) (r : Request.t) (s : S)
    (resp : employee_list) :
  caps_at st (requested_limit r) →
  result (run st (GET_api_employees repr_str db r) s) = inr resp →
  Z.of_nat (length (items resp)) ≤ requested_limit r
  ∧ Z.of_nat (length (items resp)) ≤ 500.
Proof.
  intros Hcap (limit & docs & s' & Hq & Hf & ->)%run_route_success.
  apply Query_le_limit in Hq as [-> Hle]. fold (requested_limit r) in *.
  cbn. rewrite length_fmap.
  pose proof (Hcap _ _ _ _ _ Hf). lia.
Qed.

Lemma items_within_limit_witness :
  let r := {| Request.q := None; Request.department := None;
              Request.location := None; Request.isActive := Some true;
              Request.tags := None; Request.limit := Some 2 |} in
  let o := run Mongo.mem (GET_api_employees repr_plain (Some handle) r) seeded in
  caps_at Mongo.mem (requested_limit r)
  ∧ result o = inr (body o)
  ∧ Z.of_nat (length (items (body o))) ≤ requested_limit r
  ∧ Z.of_nat (length (items (body o))) ≤ 500.
Proof.
  intros r o.
  assert (caps_at Mongo.mem (requested_limit r)) as Hcap
    by (apply mem_caps; vm_compute; discriminate).
  assert (result o = inr (body o)) as H by (vm_compute; reflexivity).
  split; [exact Hcap|]. split; [exact H|].
  exact (items_within_limit repr_plain Mongo.mem (Some handle) r seeded _ Hcap H).
Defined.

(** C5: a request to the list operation whose limit is above 500 is rejected
    with a client error (status 422) before the handler runs: the store is
    not called, its state is as before, and there is no body. *)
Theorem limit_over_500_rejected {S : Type} (repr_str : string → string)
    (st : store S) (db : option Database) (r : Request.t) (s : S) (n : Z) :
  Request.limit r = Some n →
  500 < n →
  GET_api_employees repr_str db r = Raise (RequestValidationError "limit")
  ∧ let o := run st (GET_api_employees repr_str db r) s in
    result o = inl (RequestValidationError "limit")
    ∧ status (result o) = 422
    ∧ trace o = []
    ∧ final o = s.
Proof.
  intros Hl Hn.
  assert (GET_api_employees repr_str db r
          = Raise (RequestValidationError "limit")) as ->; [|done].
  unfold GET_api_employees, Query_le. rewrite Hl.
  destruct (Z.leb_spec n 500); [lia|done].
Qed.

Lemma limit_over_500_rejected_witness :
  let r := {| Request.q := Some "hr"; Request.department := None;
              Request.location := None; Request.isActive := None;
              Request.tags := None; Request.limit := Some 501 |} in
  let o := run Mongo.mem (GET_api_employees repr_plain (Some handle) r) seeded in
  status (result o) = 422 ∧ trace o = [] ∧ final o = seeded.
Proof.
  intros r.
  destruct (limit_over_500_rejected repr_plain Mongo.mem (Some handle) r seeded
              501 eq_refl eq_refl) as (_ & _ & H).
  exact H.
Defined.

(** *** The store is not there *)

(** C6: when the store handle is absent, the list and the seed operation
    fail with a service error (status 500) and the store is not called; the
    diagnostic operation returns a body (status 200) that says that the store
    is not initialized and not connected. *)
Theorem store_unavailable {S : Type} (repr_str : string → string) (st : store S)
    (s : S) (q department location : option string) (isActive : option bool)
    (tags : option string) (limit : Z) (r : Request.t)
    (getenv : string → option string) :
  let unavailable := HTTPException 500 "Database not configured" in
  list_employees repr_str None q department location isActive tags limit
  = Raise unavailable
  ∧ match Query_le 200 500 "limit" (Request.limit r) with
    | inr _ => GET_api_employees repr_str None r = Raise unavailable
    | inl e => GET_api_employees repr_str None r = Raise e
    end
  ∧ seed_employees None = Raise unavailable
  ∧ (let o := run st (list_employees repr_str None q department location
                        isActive tags limit) s in
     status (result o) = 500 ∧ trace o = [] ∧ final o = s)
  ∧ (let o := run st (seed_employees None) s in
     status (result o) = 500 ∧ trace o = [] ∧ final o = s)
  ∧ ∃ response,
      test_database None getenv = Ret response
      ∧ response !! "database" = Some (VStr "⚠️  Available but not initialized")
      ∧ response !! "connection_status" = Some (VStr "Not Connected")
      ∧ response !! "collections" = Some (VList [])
      ∧ response !! "backend" = Some (VStr "✅ Running")
      ∧ (let o := run st (test_database None getenv) s in
         result o = inr response ∧ status (result o) = 200 ∧ trace o = []
         ∧ final o = s).
Proof.
  cbv zeta. split; [reflexivity|]. split.
  { unfold GET_api_employees.
    destruct (Query_le 200 500 "limit" (Request.limit r)); reflexivity. }
  split; [reflexivity|]. split; [done|]. split; [done|].
  eexists. split; [reflexivity|].
  repeat split; try reflexivity;
    rewrite !lookup_insert_ne by done; reflexivity.
Qed.

(** *** Empty parameters *)

(** C10: an empty string for [q], [department], [location] or [tags] adds no
    clause for it: the filter, and with it the whole operation, is the one
    of the request that leaves the parameter out; with [department=""] the
    filter has no entry for [department]. *)
Theorem empty_string_is_absent (repr_str : string → string)
    (db : option Database) (q department location : option string)
    (isActive : option bool) (tags : option string) (limit : Z) :
  build_filter (Some "") department location isActive tags
  = build_filter None department location isActive tags
  ∧ build_filter q (Some "") location isActive tags
    = build_filter q None location isActive tags
  ∧ build_filter q department (Some "") isActive tags
    = build_filter q department None isActive tags
  ∧ build_filter q department location isActive (Some "")
    = build_filter q department location isActive None
  ∧ list_employees repr_str db (Some "") department location isActive tags limit
    = list_employees repr_str db None department location isActive tags limit
  ∧ list_employees repr_str db q (Some "") location isActive tags limit
    = list_employees repr_str db q None location isActive tags limit
  ∧ list_employees repr_str db q department (Some "") isActive tags limit
    = list_employees repr_str db q department None isActive tags limit
  ∧ list_employees repr_str db q department location isActive (Some "") limit
    = list_employees repr_str db q department location isActive None limit
  ∧ build_filter (Some "") (Some "") (Some "") None (Some "") = ∅
  ∧ build_filter q (Some "") location isActive tags !! "department" = None.
Proof.
  repeat split; try reflexivity.
  unfold build_filter. cbn [given PyStr.truthy].
  repeat match goal with
         | |- context [match ?x with _ => _ end] => destruct x
         end;
    rewrite ?lookup_insert_ne by done; apply lookup_empty.
Qed.

(** *** The record normalizer *)

Section Normalizer.

Variable repr_str : string → string.

(** The fields of a normalized record: no ["_id"], the string of the old
    ["_id"] under ["id"], and the other fields as they were. *)
Lemma normalize_lookup (d : document) (k : string) :
  normalize repr_str d !! k
  = if decide (k = "_id") then None
    else if decide (k = "id")
         then Some (VStr (py_str repr_str (default VNone (d !! "_id"))))
         else d !! k.
Proof.
  unfold normalize.
  destruct (decide (k = "_id")) as [->|H1]; [apply lookup_delete_eq|].
  rewrite lookup_delete_ne by done.
  destruct (decide (k = "id")) as [->|H2]; [apply lookup_insert_eq|].
  by rewrite lookup_insert_ne.
Qed.

(** The normalizer is defined on every document, whatever fields it has or
    lacks, and takes ["_id"] out. *)
Lemma normalize_no_raw_id (d : document) : normalize repr_str d !! "_id" = None.
Proof. by rewrite normalize_lookup. Qed.

Lemma string_length_app (s1 s2 : string) :
  String.length (s1 +:+ s2) = (String.length s1 + String.length s2)%nat.
Proof.
  induction s1 as [|a s1 IH]; [reflexivity|].
  change (String a s1 +:+ s2) with (String a (s1 +:+ s2)). cbn. by f_equal.
Qed.

Lemma hex_length (w : nat) (n : N) : String.length (PyStr.hex w n) = w.
Proof.
  revert n. induction w as [|w IH]; intros n; [done|].
  cbn [PyStr.hex]. rewrite string_length_app, IH. cbn. lia.
Qed.

(** The string of an [ObjectId] has 24 characters: it is not empty. *)
Lemma py_str_ObjectId (oid : N) :
  String.length (py_str repr_str (VObjectId oid)) = 24%nat
  ∧ py_str repr_str (VObjectId oid) ≠ "".
Proof.
  cbn [py_str]. pose proof (hex_length 24 oid) as H. split; [done|].
  intros E. by rewrite E in H.
Qed.

(** The string of a value is empty only for the empty string. *)
Lemma py_str_empty (v : value) : py_str repr_str v = "" → v = VStr "".
Proof.
  destruct v as [|[]|s|oid|l]; cbn [py_str]; try discriminate.
  by intros ->.
Qed.

Lemma normalize_store_assigned (d : document) (oid : N) :
  d !! "_id" = Some (VObjectId oid) →
  normalize repr_str d !! "id" = Some (VStr (PyStr.hex 24 oid)).
Proof. intros H. by rewrite normalize_lookup, H. Qed.

(** On a record without ["_id"] the normalizer writes ["None"] into ["id"]
    and does nothing else. *)
Lemma normalize_without_id (d : document) :
  d !! "_id" = None → normalize repr_str d = <["id" := VStr "None"]> d.
Proof.
  intros H. apply map_eq. intros k. rewrite normalize_lookup, H.
  destruct (decide (k = "_id")) as [->|H1].
  - by rewrite lookup_insert_ne.
  - destruct (decide (k = "id")) as [->|H2];
      [by rewrite lookup_insert_eq | by rewrite lookup_insert_ne].
Qed.

(** The string under ["id"] is empty only when ["_id"] itself is the empty
    string; for a record without ["_id"] it is ["None"]. *)
Lemma normalize_id_nonempty (d : document) :
  d !! "_id" ≠ Some (VStr "") →
  ∃ i, normalize repr_str d !! "id" = Some (VStr i) ∧ i ≠ "".
Proof.
  intros H. rewrite normalize_lookup. cbn. eexists. split; [done|].
  intros E%py_str_empty. destruct (d !! "_id") as [v|]; [|done].
  cbn in E. by subst v.
Qed.

End Normalizer.

(** With identifiers that the store assigned: every item that the list
    operation returns has no ["_id"] and has under ["id"] a string that is
    not empty, the 24 hexadecimal digits of the identifier of the
    document. *)
Theorem items_have_id {S : Type} (repr_str : string → string) (st : store S)
    (db : option Database) (r : Request.t) (s : S) (resp : employee_list)
    (d : document) :
  assigns_ids st s →
  result (run st (GET_api_employees repr_str db r) s) = inr resp →
  d ∈ items resp →
  d !! "_id" = None
  ∧ ∃ i, d !! "id" = Some (VStr i) ∧ i ≠ "" ∧ String.length i = 24%nat.
Proof.
  intros Hids (limit & docs & s' & _ & Hf & ->)%run_route_success Hd.
  cbn in Hd. apply list_elem_of_fmap in Hd as (d0 & -> & Hd0).
  split; [apply normalize_no_raw_id|].
  pose proof (Hids _ _ _ _ _ Hf) as Hall.
  rewrite Forall_forall in Hall. destruct (Hall _ Hd0) as [oid Hoid].
  exists (PyStr.hex 24 oid). split; [by apply normalize_store_assigned|].
  destruct (py_str_ObjectId repr_str oid) as [Hlen Hne]. done.
Qed.

Lemma items_have_id_witness :
  let o := run Mongo.mem (GET_api_employees repr_plain (Some handle) no_params)
             seeded in
  let d := default ∅ (items (body o) !! 1%nat) in
  assigns_ids Mongo.mem seeded
  ∧ result o = inr (body o)
  ∧ d ∈ items (body o)
  ∧ d !! "department" = Some (VStr "HR")
  ∧ d !! "_id" = None
  ∧ ∃ i, d !! "id" = Some (VStr i) ∧ i ≠ "" ∧ String.length i = 24%nat.
Proof.
  intros o d.
  assert (result o = inr (body o)) as H by (vm_compute; reflexivity).
  assert (items (body o) !! 1%nat = Some d) as Hd by (vm_compute; reflexivity).
  assert (d ∈ items (body o)) as Hin by (eapply list_elem_of_lookup_2, Hd).
  split; [exact mem_assigns_ids_seeded|]. split; [exact H|].
  split; [exact Hin|]. split; [vm_compute; reflexivity|].
  exact (items_have_id repr_plain Mongo.mem (Some handle) no_params seeded _ d
           mem_assigns_ids_seeded H Hin).
Defined.

(** C8, as the code has it: every item that the list operation returns has
    no ["_id"] and has under ["id"] a string, the string of the ["_id"] of
    the document that the store gave at the same place.  This string is
    empty exactly when that ["_id"] is the empty string; it is ["None"] for
    a document without ["_id"] and has 24 characters for an identifier that
    the store assigned. *)
Theorem items_id_is_string_of_raw_id {S : Type} (repr_str : string → string)
    (st : store S) (db : option Database) (r : Request.t) (s : S)
    (resp : employee_list) (i : nat) (item : document) :
  result (run st (GET_api_employees repr_str db r) s) = inr resp →
  items resp !! i = Some item →
  ∃ docs s' d idstr,
    find st "employee"
      (build_filter (Request.q r) (Request.department r) (Request.location r)
         (Request.isActive r) (Request.tags r)) (requested_limit r) s
    = (Returned docs, s')
    ∧ docs !! i = Some d
    ∧ item !! "_id" = None
    ∧ item !! "id" = Some (VStr idstr)
    ∧ idstr = py_str repr_str (default VNone (d !! "_id"))
    ∧ (idstr = "" ↔ d !! "_id" = Some (VStr ""))
    ∧ (d !! "_id" = None → idstr = "None")
    ∧ (∀ oid, d !! "_id" = Some (VObjectId oid) →
         String.length idstr = 24%nat).
Proof.
  intros (limit & docs & s' & Hq & Hf & ->)%run_route_success Hi.
  apply Query_le_limit in Hq as [-> _]. fold (requested_limit r) in Hf.
  cbn [items] in Hi. rewrite list_lookup_fmap in Hi.
  destruct (docs !! i) as [d|] eqn:Hd; [|discriminate]. injection Hi as <-.
  exists docs, s', d, (py_str repr_str (default VNone (d !! "_id"))).
  split; [done|]. split; [done|]. split; [apply normalize_no_raw_id|].
  split; [by rewrite normalize_lookup|]. split; [done|]. split; [|split].
  - split.
    + intros E%py_str_empty. destruct (d !! "_id") as [v|]; [|done].
      cbn in E. by subst v.
    + by intros ->.
  - by intros ->.
  - intros oid ->. apply py_str_ObjectId.
Qed.

Lemma items_id_is_string_of_raw_id_witness :
  let o := run Mongo.mem (GET_api_employees repr_plain (Some handle) no_params)
             seeded in
  let item := default ∅ (items (body o) !! 1%nat) in
  result o = inr (body o)
  ∧ items (body o) !! 1%nat = Some item
  ∧ item !! "_id" = None
  ∧ item !! "id" = Some (VStr "000000000000000000000002").
Proof.
  intros o item.
  assert (result o = inr (body o)) as H by (vm_compute; reflexivity).
  assert (items (body o) !! 1%nat = Some item) as Hi
    by (vm_compute; reflexivity).
  destruct (items_id_is_string_of_raw_id repr_plain Mongo.mem (Some handle)
              no_params seeded _ 1%nat item H Hi)
    as (docs & s' & d & idstr & _ & _ & Hraw & _).
  split; [exact H|]. split; [exact Hi|]. split; [exact Hraw|].
  vm_compute. reflexivity.
Defined.

(** C8, as stated, fails: a record that the store holds under the empty
    string as its ["_id"] comes back with the empty string under ["id"]. *)
Lemma empty_raw_id_gives_empty_id :
  let o := run Mongo.mem (GET_api_employees repr_plain (Some handle) no_params)
             with_empty_id in
  ∃ item,
    result o = inr {| items := [item]; count := 1 |}
    ∧ item !! "firstName" = Some (VStr "Nadia")
    ∧ item !! "_id" = None
    ∧ item !! "id" = Some (VStr "").
Proof.
  intros o.
  exists (normalize repr_plain {[ "_id" := VStr ""; "firstName" := VStr "Nadia" ]}).
  split; [vm_compute; reflexivity|]. split; [vm_compute; reflexivity|].
  split; [vm_compute; reflexivity|]. vm_compute. reflexivity.
Qed.

(** C2, as the code has it: on a record without ["_id"] the normalizer leaves
    every field but ["id"] as it is and sets ["id"] to the string ["None"],
    whatever ["id"] was; done once more on the result it changes nothing. *)
Theorem normalize_normalized (repr_str : string → string) (d : document) :
  d !! "_id" = None →
  normalize repr_str d = <["id" := VStr "None"]> d
  ∧ (∀ k, k ≠ "id" → normalize repr_str d !! k = d !! k)
  ∧ normalize repr_str (normalize repr_str d) = normalize repr_str d.
Proof.
  intros H. split; [by apply normalize_without_id|]. split.
  - intros k Hk. rewrite normalize_lookup, H.
    destruct (decide (k = "_id")) as [->|]; [done|].
    by destruct (decide (k = "id")).
  - rewrite (normalize_without_id repr_str (normalize repr_str d))
      by apply normalize_no_raw_id.
    rewrite (normalize_without_id repr_str d H). apply insert_insert_eq.
Qed.

Lemma normalize_normalized_witness :
  let d : document :=
    {[ "id" := VStr "000000000000000000000002"; "department" := VStr "HR" ]} in
  d !! "_id" = None
  ∧ normalize repr_plain d = <["id" := VStr "None"]> d
  ∧ normalize repr_plain d !! "id" = Some (VStr "None")
  ∧ normalize repr_plain (normalize repr_plain d) = normalize repr_plain d.
Proof.
  intros d.
  assert (d !! "_id" = None) as H by reflexivity.
  destruct (normalize_normalized repr_plain d H) as (H1 & _ & H3).
  split; [exact H|]. split; [exact H1|]. split; [|exact H3].
  rewrite H1. reflexivity.
Defined.

(** C2, as stated, fails: normalizing a stored document twice is not
    normalizing it once.  The first step copies the identifier into
    ["id"]; the second finds no ["_id"] and puts ["None"] in its place. *)
Lemma normalize_twice_differs :
  let d : document :=
    {[ "_id" := VObjectId 2; "department" := VStr "HR" ]} in
  let once := normalize repr_plain d in
  once !! "_id" = None
  ∧ once !! "id" = Some (VStr "000000000000000000000002")
  ∧ normalize repr_plain once !! "id" = Some (VStr "None")
  ∧ normalize repr_plain once ≠ once.
Proof.
  intros d once. split; [reflexivity|]. split; [reflexivity|].
  split; [reflexivity|].
  intros E. apply (f_equal (λ m : document, m !! "id")) in E.
  vm_compute in E. discriminate.
Qed.

(** *** Seeding *)

Section Seeding.

Context {S : Type} (st : store S).

Lemma insert_answers_length (records : list document) (s : S) :
  length (insert_answers st records s) = length records.
Proof.
  revert s. induction records as [|d rest IH]; intros s; [done|].
  cbn. destruct (insert_one st "employee" d s) as [a s']. cbn. by rewrite IH.
Qed.

(** The loop inserts every record, whatever the answers to the insertions
    before it, never raises, and counts the successes. *)
Lemma run_seed_loop (records : list document) (inserted : Z) (s : S) :
  let o := run st (seed_loop records inserted) s in
  let answers := insert_answers st records s in
  result o = inr (inserted + Z.of_nat (successes answers))
  ∧ trace o = zip_with (EvInsert "employee") records answers.
Proof.
  revert inserted s. induction records as [|d rest IH]; intros inserted s.
  - cbn. split; [f_equal; lia | done].
  - cbn. destruct (insert_one st "employee" d s) as [[i|msg] s']; cbn.
    + destruct (IH (inserted + 1) s') as [-> ->].
      split; [f_equal; unfold successes; cbn; lia | done].
    + destruct (IH inserted s') as [-> ->]. done.
Qed.

Lemma run_bind_ret {A B : Type} (p : prog A) (f : A → B) (s : S) :
  let o := run st p s in
  run st (bind p (λ x, Ret (f x))) s
  = {| result := match result o with inr x => inr (f x) | inl e => inl e end;
       final := final o; trace := trace o |}.
Proof.
  revert s. induction p as [x|e|c fq n k IH|c d k IH|k IH]; intros s; cbn;
    try done.
  - destruct (find st c fq n s) as [a s']. cbn. by rewrite IH.
  - destruct (insert_one st c d s) as [a s']. cbn. by rewrite IH.
  - destruct (collection_names st s) as [a s']. cbn. by rewrite IH.
Qed.

End Seeding.

Lemma successes_le (answers : list (answer string)) :
  (successes answers ≤ length answers)%nat
  ∧ (successes answers = length answers ↔ forallb returned answers = true).
Proof.
  unfold successes. induction answers as [|a rest [IH1 IH2]]; [done|].
  cbn. destruct (returned a); cbn.
  - split; [lia|]. rewrite <- IH2. lia.
  - split; [lia|]. split; [lia|done].
Qed.

(** C7: whatever the store answers to the insertions, the seed operation
    inserts each of the three records of the sample, in order and one at a
    time; a failed insertion stops neither the ones after it nor the
    operation, which returns the number of insertions that succeeded: 3 when
    none fails.  Every sequence of three answers can occur. *)
Theorem seed_counts_successes {S : Type} (st : store S) (h : Database) (s : S) :
  length sample = 3%nat
  ∧ (let o := run st (seed_employees (Some h)) s in
     ∃ answers,
       length answers = 3%nat
       ∧ trace o = zip_with (EvInsert "employee") sample answers
       ∧ result o = inr {| inserted := Z.of_nat (successes answers) |}
       ∧ status (result o) = 200
       ∧ 0 ≤ Z.of_nat (successes answers) ≤ 3
       ∧ (Z.of_nat (successes answers) = 3 ↔ forallb returned answers = true))
  ∧ ∀ a1 a2 a3,
      let o := run Mongo.scripted (seed_employees (Some h)) [a1; a2; a3] in
      trace o = zip_with (EvInsert "employee") sample [a1; a2; a3]
      ∧ result o = inr {| inserted := Z.of_nat (successes [a1; a2; a3]) |}.
Proof.
  split; [reflexivity|]. split.
  - cbv zeta. exists (insert_answers st sample s).
    pose proof (insert_answers_length st sample s) as Hlen.
    change (length sample) with 3%nat in Hlen.
    destruct (run_seed_loop st sample 0 s) as [Hres Htr].
    unfold seed_employees.
    change (inserted ← seed_loop sample 0; mret {| inserted := inserted |})
      with (bind (seed_loop sample 0) (λ x, Ret {| inserted := x |})).
    rewrite run_bind_ret. cbn [result trace final]. rewrite Hres, Htr.
    destruct (successes_le (insert_answers st sample s)) as [Hle Hall].
    rewrite Hlen in Hle, Hall.
    repeat split; try done; try lia.
    + intros H. apply Hall. lia.
    + intros H. apply Hall in H. lia.
  - intros [i1|m1] [i2|m2] [i3|m3]; split; reflexivity.
Qed.

(** *** Strings: trimming *)

Lemma string_app_nil_r (s : string) : s +:+ "" = s.
Proof.
  induction s as [|a s IH]; [done|].
  change (String a s +:+ "") with (String a (s +:+ "")). by rewrite IH.
Qed.

Lemma string_app_assoc (s t u : string) : (s +:+ t) +:+ u = s +:+ t +:+ u.
Proof.
  induction s as [|a s IH]; [done|].
  change (String a (s +:+ t) +:+ u = String a (s +:+ t +:+ u)).
  change (String a ((s +:+ t) +:+ u) = String a (s +:+ t +:+ u)).
  by rewrite IH.
Qed.

Lemma string_rev_app_rev_app (s t u : string) :
  String.rev_app (String.rev_app s t) u = String.rev_app t (s +:+ u).
Proof.
  revert t. induction s as [|a s IH]; intros t; [done|].
  cbn [String.rev_app]. by rewrite IH.
Qed.

Lemma string_rev_involutive (s : string) : String.rev (String.rev s) = s.
Proof. unfold String.rev. by rewrite string_rev_app_rev_app, string_app_nil_r. Qed.

Lemma string_rev_app_app (s t u : string) :
  String.rev_app (s +:+ t) u = String.rev_app t (String.rev_app s u).
Proof.
  revert u. induction s as [|a s IH]; intros u; [done|].
  change (String a s +:+ t) with (String a (s +:+ t)).
  cbn [String.rev_app]. by rewrite IH.
Qed.

Lemma string_rev_app_append (s t : string) :
  String.rev_app s t = String.rev s +:+ t.
Proof.
  unfold String.rev. revert t. induction s as [|a s IH]; intros t; [done|].
  cbn [String.rev_app]. rewrite (IH (String a t)), (IH (String a "")).
  by rewrite string_app_assoc.
Qed.

Lemma string_rev_append (s t : string) :
  String.rev (s +:+ t) = String.rev t +:+ String.rev s.
Proof.
  unfold String.rev at 1. rewrite string_rev_app_app. fold (String.rev s).
  apply string_rev_app_append.
Qed.

(** After [lstrip] no white space is left at the left end, and what was
    taken off is a prefix. *)
Lemma lstrip_spec (s : string) :
  PyStr.leading_space (PyStr.lstrip s) = false
  ∧ ∃ l, s = l +:+ PyStr.lstrip s.
Proof.
  remember (String.length s) as n eqn:Hn.
  assert (String.length s ≤ n)%nat as Hle by lia. clear Hn.
  revert s Hle. induction n as [|n IH]; intros s Hs.
  { destruct s; [by split; [|exists ""] | cbn in Hs; lia]. }
  destruct s as [|a r1]; [by split; [|exists ""]|]. cbn [PyStr.lstrip].
  destruct (PyStr.space1 a) eqn:E1.
  { destruct (IH r1) as [H [l Hl]]; [cbn in Hs; lia|].
    split; [done|]. exists (String a l).
    change (String a l +:+ PyStr.lstrip r1)
      with (String a (l +:+ PyStr.lstrip r1)). by rewrite <- Hl. }
  destruct r1 as [|b r2].
  { split; [cbn [PyStr.leading_space]; by rewrite E1 | by exists ""]. }
  destruct (PyStr.space2 a b) eqn:E2.
  { destruct (IH r2) as [H [l Hl]]; [cbn in Hs; lia|].
    split; [done|]. exists (String a (String b l)).
    change (String a (String b l) +:+ PyStr.lstrip r2)
      with (String a (String b (l +:+ PyStr.lstrip r2))). by rewrite <- Hl. }
  destruct r2 as [|c r3].
  { split; [cbn [PyStr.leading_space]; by rewrite E1, E2 | by exists ""]. }
  destruct (PyStr.space3 a b c) eqn:E3.
  { destruct (IH r3) as [H [l Hl]]; [cbn in Hs; lia|].
    split; [done|]. exists (String a (String b (String c l))).
    change (String a (String b (String c l)) +:+ PyStr.lstrip r3)
      with (String a (String b (String c (l +:+ PyStr.lstrip r3)))).
    by rewrite <- Hl. }
  split; [cbn [PyStr.leading_space]; by rewrite E1, E2, E3 | by exists ""].
Qed.

Lemma lstrip_rev_spec (s : string) :
  PyStr.leading_space_rev (PyStr.lstrip_rev s) = false
  ∧ ∃ l, s = l +:+ PyStr.lstrip_rev s.
Proof.
  remember (String.length s) as n eqn:Hn.
  assert (String.length s ≤ n)%nat as Hle by lia. clear Hn.
  revert s Hle. induction n as [|n IH]; intros s Hs.
  { destruct s; [by split; [|exists ""] | cbn in Hs; lia]. }
  destruct s as [|a r1]; [by split; [|exists ""]|]. cbn [PyStr.lstrip_rev].
  destruct (PyStr.space1 a) eqn:E1.
  { destruct (IH r1) as [H [l Hl]]; [cbn in Hs; lia|].
    split; [done|]. exists (String a l).
    change (String a l +:+ PyStr.lstrip_rev r1)
      with (String a (l +:+ PyStr.lstrip_rev r1)). by rewrite <- Hl. }
  destruct r1 as [|b r2].
  { split; [cbn [PyStr.leading_space_rev]; by rewrite E1 | by exists ""]. }
  destruct (PyStr.space2 b a) eqn:E2.
  { destruct (IH r2) as [H [l Hl]]; [cbn in Hs; lia|].
    split; [done|]. exists (String a (String b l)).
    change (String a (String b l) +:+ PyStr.lstrip_rev r2)
      with (String a (String b (l +:+ PyStr.lstrip_rev r2))). by rewrite <- Hl. }
  destruct r2 as [|c r3].
  { split; [cbn [PyStr.leading_space_rev]; by rewrite E1, E2 | by exists ""]. }
  destruct (PyStr.space3 c b a) eqn:E3.
  { destruct (IH r3) as [H [l Hl]]; [cbn in Hs; lia|].
    split; [done|]. exists (String a (String b (String c l))).
    change (String a (String b (String c l)) +:+ PyStr.lstrip_rev r3)
      with (String a (String b (String c (l +:+ PyStr.lstrip_rev r3)))).
    by rewrite <- Hl. }
  split; [cbn [PyStr.leading_space_rev]; by rewrite E1, E2, E3 | by exists ""].
Qed.

(** After [rstrip] no white space is left at the right end, and what was
    taken off is a suffix. *)
Lemma rstrip_spec (s : string) :
  PyStr.trailing_space (PyStr.rstrip s) = false
  ∧ ∃ r, s = PyStr.rstrip s +:+ r.
Proof.
  unfold PyStr.trailing_space, PyStr.rstrip. rewrite string_rev_involutive.
  destruct (lstrip_rev_spec (String.rev s)) as [H [l Hl]]. split; [done|].
  exists (String.rev l).
  rewrite <- string_rev_append, <- Hl. by rewrite string_rev_involutive.
Qed.

(** A prefix that begins with white space makes the whole string begin with
    white space. *)
Lemma leading_space_prefix (p w : string) :
  PyStr.leading_space p = true → PyStr.leading_space (p +:+ w) = true.
Proof.
  destruct p as [|a [|b [|c p]]]; [done|..].
  - change (String a "" +:+ w) with (String a w).
    cbn [PyStr.leading_space]. intros ->. by destruct w as [|? [|? ?]].
  - change (String a (String b "") +:+ w) with (String a (String b w)).
    cbn [PyStr.leading_space]. intros ->. by destruct w.
  - change (String a (String b (String c p)) +:+ w)
      with (String a (String b (String c (p +:+ w)))).
    cbn [PyStr.leading_space]. by intros ->.
Qed.

(** [strip] leaves no white space at either end and returns a part of the
    string. *)
Lemma strip_spec (s : string) :
  PyStr.leading_space (PyStr.strip s) = false
  ∧ PyStr.trailing_space (PyStr.strip s) = false
  ∧ ∃ l r, s = l +:+ PyStr.strip s +:+ r.
Proof.
  unfold PyStr.strip.
  destruct (lstrip_spec s) as [Hl [l El]].
  destruct (rstrip_spec (PyStr.lstrip s)) as [Hr [r Er]].
  split; [|split; [done|]].
  - apply not_true_is_false. intros H.
    apply (leading_space_prefix _ r) in H. rewrite <- Er in H. congruence.
  - exists l, r. by rewrite <- Er.
Qed.

(** White space after white space is white space. *)
Lemma blank_app (x y : string) :
  blank x = true → blank y = true → blank (x +:+ y) = true.
Proof.
  remember (String.length x) as n eqn:Hn.
  assert (String.length x ≤ n)%nat as Hle by lia. clear Hn.
  revert x Hle. induction n as [|n IH]; intros x Hx Hbx Hby.
  { destruct x; [done | cbn in Hx; lia]. }
  destruct x as [|a r1]; [done|].
  change (String a r1 +:+ y) with (String a (r1 +:+ y)).
  cbn [blank] in Hbx |- *. apply orb_true_iff in Hbx as [Hbx|Hbx].
  { apply andb_true_iff in Hbx as [-> Hr1].
    rewrite IH by (done || cbn in Hx; lia). done. }
  destruct r1 as [|b r2]; [done|].
  change (String b r2 +:+ y) with (String b (r2 +:+ y)).
  apply orb_true_iff in Hbx as [Hbx|Hbx].
  { apply andb_true_iff in Hbx as [-> Hr2].
    rewrite (IH r2) by (done || cbn in Hx; lia). cbn. by rewrite orb_true_r. }
  destruct r2 as [|c r3]; [done|].
  change (String c r3 +:+ y) with (String c (r3 +:+ y)).
  apply andb_true_iff in Hbx as [-> Hr3].
  rewrite (IH r3) by (done || cbn in Hx; lia). cbn. by rewrite !orb_true_r.
Qed.

(** What [lstrip] takes off is white space. *)
Lemma lstrip_blank (s : string) :
  ∃ l, s = l +:+ PyStr.lstrip s ∧ blank l = true.
Proof.
  remember (String.length s) as n eqn:Hn.
  assert (String.length s ≤ n)%nat as Hle by lia. clear Hn.
  revert s Hle. induction n as [|n IH]; intros s Hs.
  { destruct s; [by exists "" | cbn in Hs; lia]. }
  destruct s as [|a r1]; [by exists ""|]. cbn [PyStr.lstrip].
  destruct (PyStr.space1 a) eqn:E1.
  { destruct (IH r1) as (l & Hl & Hb); [cbn in Hs; lia|].
    exists (String a l). split.
    - change (String a l +:+ PyStr.lstrip r1)
        with (String a (l +:+ PyStr.lstrip r1)). by rewrite <- Hl.
    - cbn [blank]. by rewrite E1, Hb. }
  destruct r1 as [|b r2]; [by exists ""|].
  destruct (PyStr.space2 a b) eqn:E2.
  { destruct (IH r2) as (l & Hl & Hb); [cbn in Hs; lia|].
    exists (String a (String b l)). split.
    - change (String a (String b l) +:+ PyStr.lstrip r2)
        with (String a (String b (l +:+ PyStr.lstrip r2))). by rewrite <- Hl.
    - cbn [blank]. rewrite E2, Hb. cbn. by rewrite orb_true_r. }
  destruct r2 as [|c r3]; [by exists ""|].
  destruct (PyStr.space3 a b c) eqn:E3; [|by exists ""].
  destruct (IH r3) as (l & Hl & Hb); [cbn in Hs; lia|].
  exists (String a (String b (String c l))). split.
  - change (String a (String b (String c l)) +:+ PyStr.lstrip r3)
      with (String a (String b (String c (l +:+ PyStr.lstrip r3)))).
    by rewrite <- Hl.
  - cbn [blank]. rewrite E3, Hb. cbn. by rewrite !orb_true_r.
Qed.

Lemma string_rev_cons (a : ascii) (s : string) :
  String.rev (String a s) = String.rev s +:+ String a "".
Proof. change (String a s) with (String a "" +:+ s). by rewrite string_rev_append. Qed.

Lemma lstrip_rev_blank (s : string) :
  ∃ l, s = l +:+ PyStr.lstrip_rev s ∧ blank (String.rev l) = true.
Proof.
  remember (String.length s) as n eqn:Hn.
  assert (String.length s ≤ n)%nat as Hle by lia. clear Hn.
  revert s Hle. induction n as [|n IH]; intros s Hs.
  { destruct s; [by exists "" | cbn in Hs; lia]. }
  destruct s as [|a r1]; [by exists ""|]. cbn [PyStr.lstrip_rev].
  destruct (PyStr.space1 a) eqn:E1.
  { destruct (IH r1) as (l & Hl & Hb); [cbn in Hs; lia|].
    exists (String a l). split.
    - change (String a l +:+ PyStr.lstrip_rev r1)
        with (String a (l +:+ PyStr.lstrip_rev r1)). by rewrite <- Hl.
    - rewrite string_rev_cons. apply blank_app; [done|]. cbn [blank]. by rewrite E1. }
  destruct r1 as [|b r2]; [by exists ""|].
  destruct (PyStr.space2 b a) eqn:E2.
  { destruct (IH r2) as (l & Hl & Hb); [cbn in Hs; lia|].
    exists (String a (String b l)). split.
    - change (String a (String b l) +:+ PyStr.lstrip_rev r2)
        with (String a (String b (l +:+ PyStr.lstrip_rev r2))).
      by rewrite <- Hl.
    - rewrite !string_rev_cons, string_app_assoc. apply blank_app; [done|].
      change (String b "" +:+ String a "") with (String b (String a "")).
      cbn [blank]. rewrite E2. cbn. by rewrite orb_true_r. }
  destruct r2 as [|c r3]; [by exists ""|].
  destruct (PyStr.space3 c b a) eqn:E3; [|by exists ""].
  destruct (IH r3) as (l & Hl & Hb); [cbn in Hs; lia|].
  exists (String a (String b (String c l))). split.
  - change (String a (String b (String c l)) +:+ PyStr.lstrip_rev r3)
      with (String a (String b (String c (l +:+ PyStr.lstrip_rev r3)))).
    by rewrite <- Hl.
  - rewrite !string_rev_cons, !string_app_assoc. apply blank_app; [done|].
    change (String c "" +:+ String b "" +:+ String a "")
      with (String c (String b (String a ""))).
    cbn [blank]. rewrite E3. cbn. by rewrite !orb_true_r.
Qed.

(** What [strip] takes off at either end is white space, and nothing
    else. *)
Lemma strip_blank_ends (p : string) :
  ∃ l r, p = l +:+ PyStr.strip p +:+ r ∧ blank l = true ∧ blank r = true.
Proof.
  destruct (lstrip_blank p) as (l & Hl & Hbl).
  destruct (lstrip_rev_blank (String.rev (PyStr.lstrip p))) as (r' & Hr & Hbr).
  exists l, (String.rev r'). split; [|done].
  unfold PyStr.strip, PyStr.rstrip. rewrite <- string_rev_append, <- Hr.
  by rewrite string_rev_involutive.
Qed.

(** *** Strings: splitting and comparing *)

Lemma truthy_true (s : string) : PyStr.truthy s = true ↔ s ≠ "".
Proof. destruct s; cbn; split; done. Qed.

Lemma given_nonempty (s : string) : s ≠ "" → given (Some s) = Some s.
Proof. intros H. unfold given. by destruct s. Qed.

Lemma split_not_nil (sep : ascii) (s : string) : PyStr.split sep s ≠ [].
Proof.
  induction s as [|c r IH]; cbn; [done|].
  destruct (Ascii.eqb c sep); [done|]. by destruct (PyStr.split sep r).
Qed.

(** Putting the separator back between the pieces gives the string again. *)
Lemma join_split (sep : ascii) (s : string) :
  PyStr.join (String sep "") (PyStr.split sep s) = s.
Proof.
  induction s as [|c r IH]; [done|]. cbn [PyStr.split].
  pose proof (split_not_nil sep r) as Hne.
  destruct (Ascii.eqb_spec c sep) as [->|Hc].
  - destruct (PyStr.split sep r) as [|p ps]; [done|].
    cbn [PyStr.join] in *. by rewrite IH.
  - destruct (PyStr.split sep r) as [|p ps]; [done|].
    destruct ps as [|p' ps]; cbn [PyStr.join] in *; by rewrite <- IH.
Qed.

(** No piece holds the separator. *)
Lemma split_no_sep (sep : ascii) (s : string) :
  Forall (λ p, sep ∉ list_ascii_of_string p) (PyStr.split sep s).
Proof.
  induction s as [|c r IH]; cbn [PyStr.split].
  - repeat constructor. cbn. by intros ?%elem_of_nil.
  - destruct (Ascii.eqb_spec c sep) as [->|Hc].
    + constructor; [|done]. cbn. by intros ?%elem_of_nil.
    + pose proof (split_not_nil sep r) as Hne.
      destruct (PyStr.split sep r) as [|p ps]; [done|].
      apply Forall_cons in IH as [Hp Hps]. constructor; [|done].
      cbn. intros [->|?]%elem_of_cons; done.
Qed.

(** The list comprehension of [tag_list] keeps the trimmed pieces that are
    not empty. *)
Lemma tag_list_filter (tags : string) :
  tag_list tags
  = filter (λ t, t ≠ "") (PyStr.strip <$> PyStr.split "," tags).
Proof.
  unfold tag_list. induction (PyStr.split "," tags) as [|p ps IH]; [done|].
  cbn [omap list_omap fmap list_fmap]. rewrite filter_cons, <- IH.
  destruct (PyStr.strip p); cbn; [by rewrite decide_False by auto|].
  by rewrite decide_True.
Qed.

Lemma prefixb_lower_match (l : list ascii) (s : string) :
  Mongo.match_here true (Mongo.Lit <$> l) s
  = PyStr.prefixb (PyStr.lower (string_of_list_ascii l)) (PyStr.lower s).
Proof.
  revert s. induction l as [|c l IH]; intros s; [by destruct s|].
  destruct s as [|x s]; [done|]. cbn. by rewrite IH.
Qed.

Lemma search_ci_substring (l : list ascii) (s : string) :
  Mongo.search true (Mongo.Lit <$> l) s
  = PyStr.substringb (PyStr.lower (string_of_list_ascii l)) (PyStr.lower s).
Proof.
  induction s as [|x s IH].
  - cbn. by rewrite prefixb_lower_match.
  - cbn [Mongo.search PyStr.substringb PyStr.lower].
    rewrite IH, prefixb_lower_match. done.
Qed.

Lemma parse_plain (q : string) :
  plain q → Mongo.parse q = Some (Mongo.Lit <$> list_ascii_of_string q).
Proof.
  unfold plain. induction q as [|c q IH]; [done|].
  cbn [list_ascii_of_string]. intros [Hc Hq]%Forall_cons.
  cbn [Mongo.parse]. destruct (Ascii.eqb_spec c ".") as [->|_]; [done|].
  rewrite Hc, (IH Hq). done.
Qed.

(** On a pattern of plain characters the pattern operator, with the option
    [i], looks for the pattern as a substring, case ignored. *)
Lemma regex_lite_plain (q s : string) :
  plain q → Mongo.regex_lite q "i" s = PyStr.ci_substring q s.
Proof.
  intros H. unfold Mongo.regex_lite, PyStr.ci_substring.
  rewrite (parse_plain q H). change (PyStr.substringb "i" "i") with true.
  by rewrite search_ci_substring, string_of_list_ascii_of_string.
Qed.

(** *** What the clauses select *)

Section Selection.

Variable regex_search : string → string → string → bool.

(** Equality with a string: the field is that string, or a list with it. *)
Lemma eq_match_str (d : document) (f t : string) :
  Mongo.eq_match (VStr t) (d !! f) = true ↔ t ∈ Mongo.field_strings d f.
Proof.
  unfold Mongo.eq_match, Mongo.field_strings.
  destruct (d !! f) as [[|b|s|oid|l]|]; cbn;
    rewrite ?orb_false_r, ?bool_decide_eq_true;
    try (split; [done | by intros ?%elem_of_nil]).
  - rewrite list_elem_of_singleton. split; [by intros [= ->] | by intros ->].
  - rewrite bool_decide_eq_false_2 by done. cbn. by rewrite bool_decide_eq_true.
Qed.

(** ["$all"] of a list that is not empty: every listed value is among the
    strings of the field. *)
Lemma eval_all (d : document) (f : string) (vs : list string) :
  vs ≠ [] →
  Mongo.eval_cond regex_search d f (CAll vs) = true
  ↔ vs ⊆ Mongo.field_strings d f.
Proof.
  intros Hne. cbn. destruct vs as [|v vs]; [done|].
  rewrite forallb_forall. split.
  - intros H t Ht. apply eq_match_str, H, list_elem_of_In, Ht.
  - intros H t Ht. apply eq_match_str, H, list_elem_of_In, Ht.
Qed.

(** ["$regex"]: the pattern finds a match in a string of the field. *)
Lemma eval_regex (d : document) (f p o : string) :
  Mongo.eval_cond regex_search d f (CRegex p o) = true
  ↔ ∃ s, s ∈ Mongo.field_strings d f ∧ regex_search p o s = true.
Proof.
  cbn. rewrite existsb_exists. split.
  - intros (s & Hs%list_elem_of_In & H). eauto.
  - intros (s & Hs%list_elem_of_In & H). eauto.
Qed.

(** ["$or"]: one of the alternatives holds. *)
Lemma eval_or (d : document) (key : string) (alts : list (string * cond)) :
  Mongo.eval_clause regex_search d key (Or alts) = true
  ↔ ∃ f c, (f, c) ∈ alts ∧ Mongo.eval_cond regex_search d f c = true.
Proof.
  cbn. rewrite existsb_exists. split.
  - intros ([f c] & H%list_elem_of_In & E). eauto.
  - intros (f & c & H%list_elem_of_In & E). exists (f, c). eauto.
Qed.

(** A document that the filter selects satisfies every entry of it. *)
Lemma matches_entry (fq : filter_query) (d : document) (key : string)
    (cl : clause) :
  Mongo.matches regex_search fq d = true →
  fq !! key = Some cl →
  Mongo.eval_clause regex_search d key cl = true.
Proof.
  unfold Mongo.matches. rewrite bool_decide_eq_true. intros H Hk.
  exact (H key cl Hk).
Qed.

End Selection.

(** Where the clauses are in the filter. *)
Lemma build_filter_or (q : string) (department location : option string)
    (isActive : option bool) (tags : option string) :
  q ≠ "" →
  build_filter (Some q) department location isActive tags !! "$or"
  = Some (Or ((λ f, (f, CRegex q "i")) <$> search_fields)).
Proof.
  intros Hq. unfold build_filter. rewrite (given_nonempty q Hq).
  repeat match goal with
         | |- context [match ?x with _ => _ end] => destruct x
         end;
    rewrite ?lookup_insert_ne by done; apply lookup_insert_eq.
Qed.

Lemma build_filter_tags (q department location : option string)
    (isActive : option bool) (tags : option string) :
  build_filter q department location isActive tags !! "tags"
  = match given tags with
    | Some tags =>
        match tag_list tags with
        | [] => None
        | pieces => Some (Field (CAll pieces))
        end
    | None => None
    end.
Proof.
  unfold build_filter.
  destruct (given tags) as [t|]; [destruct (tag_list t)|];
    rewrite ?lookup_insert_eq; try done;
    repeat match goal with
           | |- context [match ?x with _ => _ end] => destruct x
           end;
    rewrite ?lookup_insert_ne by done; apply lookup_empty.
Qed.

Lemma tag_list_empty_string : tag_list "" = [].
Proof. reflexivity. Qed.

(** *** The tags filter *)

(** C3: the list operation splits the [tags] parameter on commas, trims each
    piece (what is taken off at either end is white space and nothing else,
    and no white space is left there) and drops the empty ones.
    When a piece is left, the filter has the
    entry ["tags"] asking for all of them: a record is selected by it exactly
    when every listed value is among its tags, in any order, so a record
    that lacks one of them is not selected.  When no piece is left, the
    filter has no entry ["tags"]. *)
Theorem tags_clause (regex_search : string → string → string → bool)
    (q department location : option string) (isActive : option bool)
    (tags : string) :
  let pieces := filter (λ t, t ≠ "") (PyStr.strip <$> PyStr.split "," tags) in
  let fq := build_filter q department location isActive (Some tags) in
  tag_list tags = pieces
  ∧ PyStr.join "," (PyStr.split "," tags) = tags
  ∧ Forall (λ p, ","%char ∉ list_ascii_of_string p) (PyStr.split "," tags)
  ∧ Forall (λ p, ∃ l r, p = l +:+ PyStr.strip p +:+ r
                        ∧ blank l = true ∧ blank r = true)
      (PyStr.split "," tags)
  ∧ Forall (λ t, t ≠ "" ∧ PyStr.leading_space t = false
                 ∧ PyStr.trailing_space t = false) pieces
  ∧ match pieces with
    | [] => fq !! "tags" = None
    | _ :: _ =>
        fq !! "tags" = Some (Field (CAll pieces))
        ∧ (∀ d, Mongo.eval_clause regex_search d "tags" (Field (CAll pieces))
                = true
                ↔ pieces ⊆ Mongo.field_strings d "tags")
        ∧ (∀ d, Mongo.matches regex_search fq d = true →
                pieces ⊆ Mongo.field_strings d "tags")
        ∧ (∀ d t, t ∈ pieces → t ∉ Mongo.field_strings d "tags" →
                  Mongo.matches regex_search fq d = false)
        ∧ (∀ d pieces', pieces' ≡ₚ pieces →
             Mongo.eval_clause regex_search d "tags" (Field (CAll pieces'))
             = Mongo.eval_clause regex_search d "tags" (Field (CAll pieces)))
    end.
Proof.
  intros pieces fq.
  pose proof (tag_list_filter tags) as Htl. fold pieces in Htl.
  split; [done|]. split; [apply (join_split ",")|].
  split; [apply (split_no_sep ",")|].
  split; [apply Forall_forall; intros p _; apply strip_blank_ends|].
  split.
  { apply Forall_forall.
    intros t [Ht (p & -> & _)%list_elem_of_fmap]%list_elem_of_filter.
    destruct (strip_spec p) as (Hl & Hr & _). done. }
  pose proof (build_filter_tags q department location isActive (Some tags))
    as Hlook.
  fold fq in Hlook. unfold given in Hlook.
  destruct tags as [|c tags'] eqn:Etags.
  { exact Hlook. }
  cbn [PyStr.truthy] in Hlook. rewrite <- Etags in *. rewrite Htl in Hlook.
  destruct pieces as [|p ps] eqn:Ep; [done|].
  assert (p :: ps ≠ []) as Hne by done.
  assert (∀ d, Mongo.matches regex_search fq d = true →
               p :: ps ⊆ Mongo.field_strings d "tags") as Hreq.
  { intros d Hm. apply (eval_all regex_search d "tags" _ Hne).
    exact (matches_entry regex_search fq d "tags" _ Hm Hlook). }
  split; [done|]. split; [intros d; by apply eval_all|]. split; [done|]. split.
  - intros d t Ht Hnt. apply not_true_is_false. intros Hm.
    apply Hnt, (Hreq d Hm), Ht.
  - intros d pieces' Hperm.
    assert (pieces' ≠ []) as Hne'.
    { intros ->. by apply Permutation_nil_l in Hperm. }
    apply eq_true_iff_eq.
    change (Mongo.eval_clause regex_search d "tags" (Field (CAll ?v)))
      with (Mongo.eval_cond regex_search d "tags" (CAll v)).
    rewrite !eval_all by done. by rewrite Hperm.
Qed.

Lemma tags_clause_witness :
  let tags := " Linux , ,DevOps,," in
  let fq := build_filter None None None None (Some tags) in
  PyStr.split "," tags = [" Linux "; " "; "DevOps"; ""; ""]
  ∧ tag_list tags = ["Linux"; "DevOps"]
  ∧ fq !! "tags" = Some (Field (CAll ["Linux"; "DevOps"]))
  ∧ Mongo.matches Mongo.regex_lite fq
      {[ "tags" := VList ["DevOps"; "Networking"; "Linux"] ]} = true
  ∧ Mongo.matches Mongo.regex_lite fq {[ "tags" := VList ["Linux"] ]} = false.
Proof.
  intros tags fq.
  pose proof (tags_clause Mongo.regex_lite None None None None tags) as H.
  cbv zeta in H. fold fq in H.
  assert (filter (λ t, t ≠ "") (PyStr.strip <$> PyStr.split "," tags)
          = ["Linux"; "DevOps"]) as Hp by (vm_compute; reflexivity).
  rewrite Hp in H. destruct H as (H1 & _ & _ & _ & _ & H6 & _ & _ & H9 & _).
  split; [vm_compute; reflexivity|]. split; [exact H1|]. split; [exact H6|].
  split; [vm_compute; reflexivity|].
  apply (H9 _ "DevOps").
  - apply elem_of_cons. right. apply elem_of_cons. by left.
  - vm_compute. intros Hin. apply list_elem_of_In in Hin.
    destruct Hin as [Hin|[]]. discriminate Hin.
Defined.

(** The example of the tags filter: with ["Linux,DevOps"] the record that
    has both tags is selected and a record with ["Linux"] alone is not. *)
Example tags_Linux_DevOps :
  let fq := build_filter None None None None (Some "Linux,DevOps") in
  fq = {[ "tags" := Field (CAll ["Linux"; "DevOps"]) ]}
  ∧ Mongo.matches Mongo.regex_lite fq
      {[ "tags" := VList ["Linux"; "Networking"; "DevOps"] ]} = true
  ∧ Mongo.matches Mongo.regex_lite fq {[ "tags" := VList ["Linux"] ]} = false
  ∧ Mongo.matches Mongo.regex_lite fq
      {[ "tags" := VList ["DevOps"; "Linux"] ]} = true.
Proof. vm_compute. done. Qed.

(** *** The free-text search *)

(** C1, as the code has it: for a [q] that is not empty the filter has one
    entry ["$or"] with eight alternatives, one for each search field, each
    handing [q] as it is to the store's pattern operator with the option
    [i].  A record is selected by this entry exactly when the pattern [q]
    finds a match in a string of one of the eight fields.  When every
    character of [q] stands for itself, that is: when one of the fields
    contains [q] as a substring, case ignored. *)
Theorem free_text_clause (regex_search : string → string → string → bool)
    (q : string) (department location : option string)
    (isActive : option bool) (tags : option string) :
  q ≠ "" →
  let fq := build_filter (Some q) department location isActive tags in
  let cl := Or ((λ f, (f, CRegex q "i")) <$> search_fields) in
  fq !! "$or" = Some cl
  ∧ length search_fields = 8%nat
  ∧ (∀ d, Mongo.eval_clause regex_search d "$or" cl = true
          ↔ ∃ f s, f ∈ search_fields ∧ s ∈ Mongo.field_strings d f
                   ∧ regex_search q "i" s = true)
  ∧ (∀ d, Mongo.matches regex_search fq d = true →
          Mongo.eval_clause regex_search d "$or" cl = true)
  ∧ (plain q →
     ∀ d, Mongo.eval_clause Mongo.regex_lite d "$or" cl = true
          ↔ ∃ f, f ∈ search_fields ∧ contains_ci q d f).
Proof.
  intros Hq fq cl.
  pose proof (build_filter_or q department location isActive tags Hq) as Hor.
  fold fq cl in Hor.
  assert (∀ r d, Mongo.eval_clause r d "$or" cl = true
                 ↔ ∃ f s, f ∈ search_fields ∧ s ∈ Mongo.field_strings d f
                          ∧ r q "i" s = true) as Hsel.
  { intros r d. unfold cl. rewrite eval_or. split.
    - intros (f & c & (f0 & [= -> ->] & Hf)%list_elem_of_fmap & He).
      apply eval_regex in He as (s & Hs & Hm). eauto.
    - intros (f & s & Hf & Hs & Hm). exists f, (CRegex q "i").
      split; [apply list_elem_of_fmap; eauto|]. apply eval_regex. eauto. }
  split; [done|]. split; [done|]. split; [apply Hsel|]. split.
  - intros d Hm. exact (matches_entry regex_search fq d "$or" cl Hm Hor).
  - intros Hplain d. rewrite Hsel. unfold contains_ci. split.
    + intros (f & s & Hf & Hs & Hm). rewrite regex_lite_plain in Hm by done.
      eauto.
    + intros (f & Hf & s & Hs & Hm). exists f, s.
      rewrite regex_lite_plain by done. eauto.
Qed.

Lemma free_text_clause_witness :
  let d : document := {[ "firstName" := VStr "Leila"; "department" := VStr "HR" ]} in
  let cl := Or ((λ f, (f, CRegex "hr" "i")) <$> search_fields) in
  "hr" ≠ ""
  ∧ plain "hr"
  ∧ build_filter (Some "hr") None None None None !! "$or" = Some cl
  ∧ (Mongo.eval_clause Mongo.regex_lite d "$or" cl = true
     ↔ ∃ f, f ∈ search_fields ∧ contains_ci "hr" d f)
  ∧ Mongo.eval_clause Mongo.regex_lite d "$or" cl = true.
Proof.
  intros d cl.
  assert ("hr" ≠ "") as Hq by discriminate.
  assert (plain "hr") as Hp by (repeat constructor).
  destruct (free_text_clause Mongo.regex_lite "hr" None None None None Hq)
    as (H1 & _ & _ & _ & H5).
  split; [exact Hq|]. split; [exact Hp|]. split; [exact H1|].
  split; [exact (H5 Hp d)|]. reflexivity.
Defined.

(** C1, as stated, fails: the pattern [.] selects a record none of whose
    fields contains a full stop. *)
Lemma free_text_not_substring :
  let d : document := {[ "firstName" := VStr "Leila"; "department" := VStr "HR" ]} in
  ∃ cl,
    build_filter (Some ".") None None None None !! "$or" = Some cl
    ∧ Mongo.eval_clause Mongo.regex_lite d "$or" cl = true
    ∧ Mongo.matches Mongo.regex_lite
        (build_filter (Some ".") None None None None) d = true
    ∧ ¬ ∃ f, f ∈ search_fields ∧ contains_ci "." d f.
Proof.
  intros d. eexists. split; [reflexivity|]. split; [reflexivity|].
  split; [vm_compute; reflexivity|].
  intros (f & Hf & s & Hs & Hc).
  unfold search_fields in Hf.
  repeat (apply elem_of_cons in Hf as [->|Hf]);
    try (vm_compute in Hs; apply list_elem_of_In in Hs; cbn in Hs;
         destruct Hs as [<-|[]]; vm_compute in Hc; discriminate);
    try (vm_compute in Hs; by apply elem_of_nil in Hs).
  by apply elem_of_nil in Hf.
Qed.

(** *** The handlers on the store in memory *)

(** Seeding inserts the three records and gives each an identifier; seeding
    again inserts three more. *)
Example seed_twice :
  let o1 := run Mongo.mem (seed_employees (Some handle)) Mongo.empty in
  let o2 := run Mongo.mem (seed_employees (Some handle)) (final o1) in
  result o1 = inr {| inserted := 3 |}
  ∧ result o2 = inr {| inserted := 3 |}
  ∧ length <$> Mongo.collections (final o1) !! "employee" = Some 3%nat
  ∧ length <$> Mongo.collections (final o2) !! "employee" = Some 6%nat.
Proof. vm_compute. done. Qed.

(** A failed insertion in the middle: the third record is still inserted and
    the count is 2. *)
Example seed_with_a_failure :
  let o := run Mongo.scripted (seed_employees (Some handle))
             [Returned "a"; Raised "duplicate key"; Returned "c"] in
  result o = inr {| inserted := 2 |} ∧ length (trace o) = 3%nat ∧ final o = [].
Proof. vm_compute. done. Qed.

(** The search for ["hr"] finds the record of the department ["HR"], and only
    that one. *)
Example search_hr :
  let r := {| Request.q := Some "hr"; Request.department := None;
              Request.location := None; Request.isActive := None;
              Request.tags := None; Request.limit := None |} in
  let o := run Mongo.mem (GET_api_employees repr_plain (Some handle) r) seeded in
  (λ d : document, d !! "department") <$> items (body o) = [Some (VStr "HR")]
  ∧ count (body o) = 1.
Proof. vm_compute. done. Qed.

(** With a store handle the diagnostic operation lists the collections. *)
Example test_database_connected :
  let o := run Mongo.mem (test_database (Some handle) (λ _, None)) seeded in
  status (result o) = 200
  ∧ match result o with
    | inr response =>
        response !! "database" = Some (VStr "✅ Connected & Working")
        ∧ response !! "collections" = Some (VList ["employee"])
        ∧ response !! "database_url" = Some (VStr "❌ Not Set")
    | inl _ => False
    end.
Proof. vm_compute. done. Qed.

(** Trimming takes off white space of more than one byte as well, and
    leaves the white space inside. *)
Example strip_examples :
  PyStr.strip "  Dev Ops 	" = "Dev Ops"
  ∧ PyStr.strip (String (ascii_of_N 194) (String (ascii_of_N 160) "Linux "))
    = "Linux"
  ∧ tag_list " Linux , ,DevOps,," = ["Linux"; "DevOps"]
  ∧ tag_list " , " = [].
Proof. vm_compute. done. Qed.

(* ===================================================================== *)
(** ** Further properties of the handlers *)
(* ===================================================================== *)

(** *** The filter as a whole *)

Lemma given_Some (x : option string) (v : string) :
  given x = Some v ↔ x = Some v ∧ v ≠ "".
Proof.
  unfold given. destruct x as [[|c s]|]; cbn; split;
    try (intros [= <-]; done); try (intros [[= <-] H]; done);
    try (intros [[=] _]); done.
Qed.

Lemma given_None (x : option string) :
  given x = None ↔ x = None ∨ x = Some "".
Proof.
  unfold given. destruct x as [[|c s]|]; cbn; split; try done; eauto;
    intros [H|H]; done.
Qed.

(** The entry of the filter under each key. *)
Lemma build_filter_lookup (q department location : option string)
    (isActive : option bool) (tags : option string) (key : string) :
  build_filter q department location isActive tags !! key
  = if decide (key = "$or")
    then (λ q, Or ((λ f, (f, CRegex q "i")) <$> search_fields)) <$> given q
    else if decide (key = "department")
    then (λ v, Field (CEq (VStr v))) <$> given department
    else if decide (key = "location")
    then (λ v, Field (CEq (VStr v))) <$> given location
    else if decide (key = "isActive")
    then (λ b, Field (CEq (VBool b))) <$> isActive
    else if decide (key = "tags")
    then match given tags with
         | Some t =>
             match tag_list t with
             | [] => None
             | pieces => Some (Field (CAll pieces))
             end
         | None => None
         end
    else None.
Proof.
  unfold build_filter.
  destruct (given q), (given department), (given location), isActive,
    (given tags) as [t|]; try destruct (tag_list t);
    repeat case_decide; subst; simplify_map_eq; done.
Qed.

Section Selected.
Variable r : string → string → string → bool.

Lemma eq_match_bool (d : document) (f : string) (b : bool) :
  Mongo.eq_match (VBool b) (d !! f) = true ↔ d !! f = Some (VBool b).
Proof.
  unfold Mongo.eq_match. destruct (d !! f) as [v|]; cbn.
  - rewrite orb_true_iff, bool_decide_eq_true. split.
    + intros [->|H]; [done|]. by destruct v.
    + intros [= ->]. by left.
  - rewrite bool_decide_eq_true. split; done.
Qed.

Lemma matches_build_filter q department location isActive tags d :
  Mongo.matches r (build_filter q department location isActive tags) d = true
  ↔ (∀ q', given q = Some q' →
       ∃ f s, f ∈ search_fields ∧ s ∈ Mongo.field_strings d f
              ∧ r q' "i" s = true)
    ∧ (∀ v, given department = Some v → v ∈ Mongo.field_strings d "department")
    ∧ (∀ v, given location = Some v → v ∈ Mongo.field_strings d "location")
    ∧ (∀ b, isActive = Some b → d !! "isActive" = Some (VBool b))
    ∧ (∀ t, given tags = Some t → tag_list t ⊆ Mongo.field_strings d "tags").
Proof.
  unfold Mongo.matches. rewrite bool_decide_eq_true.
  set (fq := build_filter q department location isActive tags).
  assert (∀ key, fq !! key = _) as Hlook
    by (intros key; apply build_filter_lookup).
  split.
  - intros H. repeat split.
    + intros q' Hq. pose proof (Hlook "$or") as Hk. rewrite Hq in Hk.
      change (fq !! "$or"
              = Some (Or ((λ f, (f, CRegex q' "i")) <$> search_fields))) in Hk.
      apply H in Hk. apply eval_or in Hk as (f & c & Hin & He).
      apply list_elem_of_fmap in Hin as (f0 & [= -> ->] & Hf).
      apply eval_regex in He as (s & Hs & Hm). eauto.
    + intros v Hv. pose proof (Hlook "department") as Hk. cbn in Hk.
      rewrite Hv in Hk. apply H in Hk. by apply eq_match_str in Hk.
    + intros v Hv. pose proof (Hlook "location") as Hk. cbn in Hk.
      rewrite Hv in Hk. apply H in Hk. by apply eq_match_str in Hk.
    + intros b ->. pose proof (Hlook "isActive") as Hk. cbn in Hk.
      apply H in Hk. by apply eq_match_bool in Hk.
    + intros t Ht. pose proof (Hlook "tags") as Hk. cbn in Hk. rewrite Ht in Hk.
      destruct (tag_list t) as [|p ps] eqn:E; [by intros ? ?%elem_of_nil|].
      apply H in Hk. cbn [Mongo.eval_clause] in Hk.
      by apply (eval_all r) in Hk.
  - intros (Hq & Hd & Hl & Ha & Ht) key cl Hk. rewrite Hlook in Hk.
    clear Hlook. repeat case_decide; subst; try done.
    + destruct (given q) as [q'|] eqn:E; [|done].
      change (Some (Or ((λ f, (f, CRegex q' "i")) <$> search_fields)) = Some cl)
        in Hk.
      injection Hk as <-.
      destruct (Hq q' eq_refl) as (f & s & Hf & Hs & Hm).
      apply eval_or. exists f, (CRegex q' "i").
      split; [|apply eval_regex; eauto].
      exact (list_elem_of_fmap_2 (λ f, (f, CRegex q' "i")) search_fields f Hf).
    + destruct (given department) as [v|] eqn:E; [|done]. injection Hk as <-.
      cbn. apply eq_match_str. auto.
    + destruct (given location) as [v|] eqn:E; [|done]. injection Hk as <-.
      cbn. apply eq_match_str. auto.
    + destruct isActive as [b|]; [|done]. injection Hk as <-.
      cbn. apply eq_match_bool. auto.
    + destruct (given tags) as [t|] eqn:E; [|done].
      destruct (tag_list t) as [|p ps] eqn:E'; [done|]. injection Hk as <-.
      cbn [Mongo.eval_clause]. apply (eval_all r); [done|]. rewrite <- E'. auto.
Qed.
End Selected.

Ltac pick_entry H :=
  repeat (rewrite decide_False in H by done);
  rewrite decide_True in H by done.

(** X4: the filter has entries only under the five keys ["$or"],
    ["department"], ["location"], ["isActive"] and ["tags"], and one for a
    parameter exactly when the parameter is given: a string that is not
    empty (taken as it is, not trimmed), a boolean ([false] as well as
    [true]), or tags with a piece left.  The filter is empty exactly when
    nothing is given. *)
Theorem filter_entries_for_given_parameters (q department location : option string)
    (isActive : option bool) (tags : option string) :
  let fq := build_filter q department location isActive tags in
  dom fq ⊆ filter_keys
  ∧ ("$or" ∈ dom fq ↔ ∃ v, q = Some v ∧ v ≠ "")
  ∧ (fq !! "department"
     = match department with
       | Some (String c v) => Some (Field (CEq (VStr (String c v))))
       | _ => None
       end)
  ∧ (fq !! "location"
     = match location with
       | Some (String c v) => Some (Field (CEq (VStr (String c v))))
       | _ => None
       end)
  ∧ (fq !! "isActive"
     = match isActive with
       | Some b => Some (Field (CEq (VBool b)))
       | None => None
       end)
  ∧ ("tags" ∈ dom fq ↔ ∃ t, tags = Some t ∧ tag_list t ≠ [])
  ∧ (fq = ∅ ↔ (q = None ∨ q = Some "")
              ∧ (department = None ∨ department = Some "")
              ∧ (location = None ∨ location = Some "")
              ∧ isActive = None
              ∧ (tags = None ∨ ∃ t, tags = Some t ∧ tag_list t = [])).
Proof.
  intros fq.
  assert (∀ key, fq !! key = _) as Hlook
    by (intros key; apply build_filter_lookup).
  split.
  { intros key [cl Hk]%elem_of_dom. rewrite Hlook in Hk. unfold filter_keys.
    repeat case_decide; subst; try done; set_solver. }
  split.
  { rewrite elem_of_dom, Hlook, decide_True by done. split.
    - intros [cl Hk]. destruct (given q) as [v|] eqn:E; [|done].
      apply given_Some in E. eauto.
    - intros (v & Hv). apply given_Some in Hv. rewrite Hv. by eexists. }
  split; [rewrite Hlook; by destruct department as [[|c v]|]|].
  split; [rewrite Hlook; by destruct location as [[|c v]|]|].
  split; [rewrite Hlook; by destruct isActive|].
  split.
  { rewrite elem_of_dom, Hlook.
    rewrite decide_False, decide_False, decide_False, decide_False, decide_True
      by done.
    split.
    - intros [cl Hk]. destruct (given tags) as [t|] eqn:E; [|done].
      apply given_Some in E as [-> _]. exists t. split; [done|].
      by destruct (tag_list t).
    - intros (t & -> & Ht).
      assert (given (Some t) = Some t) as ->
        by (apply given_Some; split; [done|]; by intros ->).
      destruct (tag_list t); [done | by eexists]. }
  split.
  - intros Hempty.
    assert (∀ key, fq !! key = None) as Hnone
      by (intros key; rewrite Hempty; apply lookup_empty).
    pose proof (Hnone "$or") as H1. pose proof (Hnone "department") as H2.
    pose proof (Hnone "location") as H3. pose proof (Hnone "isActive") as H4.
    pose proof (Hnone "tags") as H5. rewrite Hlook in H1, H2, H3, H4, H5.
    pick_entry H1. pick_entry H2. pick_entry H3. pick_entry H4. pick_entry H5.
    split; [apply given_None; by destruct (given q)|].
    split; [apply given_None; by destruct (given department)|].
    split; [apply given_None; by destruct (given location)|].
    split; [by destruct isActive|].
    destruct tags as [t|]; [|by left]. right. exists t. split; [done|].
    destruct (given (Some t)) as [t'|] eqn:E.
    + apply given_Some in E as [[= <-] _]. by destruct (tag_list t).
    + apply given_None in E as [E|[= ->]]; done.
  - intros (Hq & Hd & Hl & -> & Ht). apply map_eq. intros key.
    rewrite Hlook, lookup_empty.
    apply given_None in Hq, Hd, Hl. rewrite Hq, Hd, Hl.
    repeat case_decide; try done.
    destruct Ht as [->|(t & -> & Ht)]; [done|].
    destruct (given (Some t)) as [t'|] eqn:E; [|done].
    apply given_Some in E as [[= <-] _]. by rewrite Ht.
Qed.

Section Narrowing.
Variable r : string → string → string → bool.

(** X5: a document is selected by the filter exactly when every given
    parameter holds of it: the pattern [q] finds a match in one of the search
    fields, [department] and [location] are among the strings of their
    fields, [isActive] is the boolean of the field, and every tag of the
    list is among the tags. *)
Theorem selected_iff_given_filters_hold (q department location : option string)
    (isActive : option bool) (tags : option string) (d : document) :
  Mongo.matches r (build_filter q department location isActive tags) d = true
  ↔ (∀ v, q = Some v → v ≠ "" →
       ∃ f s, f ∈ search_fields ∧ s ∈ Mongo.field_strings d f
              ∧ r v "i" s = true)
    ∧ (∀ v, department = Some v → v ≠ "" →
         v ∈ Mongo.field_strings d "department")
    ∧ (∀ v, location = Some v → v ≠ "" → v ∈ Mongo.field_strings d "location")
    ∧ (∀ b, isActive = Some b → d !! "isActive" = Some (VBool b))
    ∧ (∀ t, tags = Some t → tag_list t ⊆ Mongo.field_strings d "tags").
Proof.
  rewrite matches_build_filter. split.
  - intros (Hq & Hd & Hl & Ha & Ht). repeat split; try done.
    + intros v -> Hv. by apply Hq, given_Some.
    + intros v -> Hv. by apply Hd, given_Some.
    + intros v -> Hv. by apply Hl, given_Some.
    + intros t ->. destruct t as [|c t]; [by intros ? ?%elem_of_nil|].
      by apply Ht.
  - intros (Hq & Hd & Hl & Ha & Ht). repeat split; try done.
    + intros v [-> Hv]%given_Some. by apply Hq.
    + intros v [-> Hv]%given_Some. by apply Hd.
    + intros v [-> Hv]%given_Some. by apply Hl.
    + intros t [-> Hv]%given_Some. by apply Ht.
Qed.

(** X6: leaving parameters out of a request never loses a record: what the
    filter of a request selects is selected by the filter of any request
    that keeps some of its parameters and drops the others. *)
Theorem dropping_parameters_keeps_selected
    (q q2 department department2 location location2 : option string)
    (isActive isActive2 : option bool) (tags tags2 : option string)
    (d : document) :
  kept_or_dropped q q2 →
  kept_or_dropped department department2 →
  kept_or_dropped location location2 →
  kept_or_dropped isActive isActive2 →
  kept_or_dropped tags tags2 →
  Mongo.matches r (build_filter q department location isActive tags) d = true →
  Mongo.matches r (build_filter q2 department2 location2 isActive2 tags2) d
  = true.
Proof.
  intros Hq Hd Hl Ha Ht. rewrite !matches_build_filter.
  intros (H1 & H2 & H3 & H4 & H5).
  destruct Hq as [->| ->], Hd as [->| ->], Hl as [->| ->], Ha as [->| ->],
    Ht as [->| ->]; repeat split; done.
Qed.

(** X7: the free-text search reads the eight search fields and nothing
    else: two documents that agree on these fields get the same answer from
    the ["$or"] entry, and a document with none of them is not selected,
    whatever its [bio], [office] or [tags] hold. *)
Theorem free_text_reads_search_fields_only (q : string)
    (department location : option string) (isActive : option bool)
    (tags : option string) (d d' : document) :
  q ≠ "" →
  (∀ f, f ∈ search_fields → d !! f = d' !! f) →
  let cl := Or ((λ f, (f, CRegex q "i")) <$> search_fields) in
  Mongo.eval_clause r d "$or" cl = Mongo.eval_clause r d' "$or" cl
  ∧ ((∀ f, f ∈ search_fields → d !! f = None) →
     Mongo.matches r (build_filter (Some q) department location isActive tags) d
     = false).
Proof.
  intros Hq Hagree cl. split.
  - apply eq_true_iff_eq. unfold cl. rewrite !eval_or. 
    assert (∀ f, f ∈ search_fields →
                 Mongo.field_strings d f = Mongo.field_strings d' f) as Hfs.
    { intros f Hf. unfold Mongo.field_strings. by rewrite (Hagree f Hf). }
    split; intros (f & c & Hin & He); exists f, c; (split; [done|]);
      apply list_elem_of_fmap in Hin as (f0 & [= -> ->] & Hf);
      apply eval_regex in He as (s & Hs & Hm); apply eval_regex; exists s;
      (split; [|done]); [by rewrite <- Hfs | by rewrite Hfs].
  - intros Hnone. apply not_true_is_false. rewrite matches_build_filter.
    intros (H1 & _). destruct (H1 q (given_nonempty q Hq)) as (f & s & Hf & Hs & _).
    unfold Mongo.field_strings in Hs. rewrite (Hnone f Hf) in Hs.
    by apply elem_of_nil in Hs.
Qed.
End Narrowing.

Lemma dropping_parameters_keeps_selected_witness :
  let d : document :=
    {[ "firstName" := VStr "Leila"; "department" := VStr "HR";
       "tags" := VList ["Recruitment"; "Culture"] ]} in
  Mongo.matches Mongo.regex_lite
    (build_filter (Some "hr") (Some "HR") None None (Some "Culture")) d = true
  ∧ Mongo.matches Mongo.regex_lite
      (build_filter None (Some "HR") None None None) d = true.
Proof.
  intros d.
  assert (Mongo.matches Mongo.regex_lite
            (build_filter (Some "hr") (Some "HR") None None (Some "Culture")) d
          = true) as H by (vm_compute; reflexivity).
  split; [exact H|].
  exact (dropping_parameters_keeps_selected Mongo.regex_lite
           (Some "hr") None (Some "HR") (Some "HR") None None None None
           (Some "Culture") None d
           (or_intror eq_refl) (or_introl eq_refl) (or_introl eq_refl)
           (or_introl eq_refl) (or_intror eq_refl) H).
Defined.

Lemma free_text_reads_search_fields_only_witness :
  let d : document := {[ "bio" := VStr "budget reports"; "office" := VStr "D3" ]} in
  let d' : document := {[ "tags" := VList ["budget"] ]} in
  Mongo.eval_clause Mongo.regex_lite d "$or"
    (Or ((λ f, (f, CRegex "budget" "i")) <$> search_fields))
  = Mongo.eval_clause Mongo.regex_lite d' "$or"
      (Or ((λ f, (f, CRegex "budget" "i")) <$> search_fields))
  ∧ Mongo.matches Mongo.regex_lite
      (build_filter (Some "budget") None None None None) d = false.
Proof.
  intros d d'.
  assert ("budget" ≠ "") as Hq by discriminate.
  assert (∀ f, f ∈ search_fields → d !! f = d' !! f) as Hagree.
  { intros f Hf. unfold search_fields in Hf.
    repeat (apply elem_of_cons in Hf as [->|Hf]); try reflexivity.
    by apply elem_of_nil in Hf. }
  assert (∀ f, f ∈ search_fields → d !! f = None) as Hnone.
  { intros f Hf. unfold search_fields in Hf.
    repeat (apply elem_of_cons in Hf as [->|Hf]); try reflexivity.
    by apply elem_of_nil in Hf. }
  destruct (free_text_reads_search_fields_only Mongo.regex_lite "budget" None
              None None None d d' Hq Hagree) as [H1 H2].
  split; [exact H1 | exact (H2 Hnone)].
Defined.

(** *** The list operation and the store *)

(** X1: with a store handle, [list_employees] calls the store exactly once:
    a find in the collection ["employee"], with the filter built from the
    parameters and the limit as it is.  It inserts nothing.  When the find
    raises, the exception goes up (status 500) and there is no body; when it
    returns, the body holds the normalized documents and their number. *)
Theorem list_employees_one_find {S : Type} (repr_str : string → string)
    (st : store S) (h : Database) (q department location : option string)
    (isActive : option bool) (tags : option string) (limit : Z) (s : S) :
  let fq := build_filter q department location isActive tags in
  let o := run st (list_employees repr_str (Some h) q department location
                     isActive tags limit) s in
  let a := (find st "employee" fq limit s).1 in
  trace o = [EvFind "employee" fq limit a]
  ∧ final o = (find st "employee" fq limit s).2
  ∧ match a with
    | Returned docs =>
        result o = inr {| items := normalize repr_str <$> docs;
                          count := Z.of_nat (length docs) |}
    | Raised msg =>
        result o = inl (StoreError msg) ∧ status (result o) = 500
    end.
Proof.
  cbv zeta. rewrite run_list_employees. cbn.
  destruct (find st "employee" _ limit s) as [[docs|msg] s']; cbn;
    rewrite ?length_fmap; done.
Qed.

(** X2: a successful list operation returns the documents that the store
    gave, one item for each, in the same order.  The item has the string of
    the document's ["_id"] under ["id"] (an ["id"] of the stored document is
    overwritten), no ["_id"], and every other field as in the document. *)
Theorem items_follow_the_store {S : Type} (repr_str : string → string)
    (st : store S) (db : option Database) (r : Request.t) (s : S)
    (resp : employee_list) :
  result (run st (GET_api_employees repr_str db r) s) = inr resp →
  ∃ docs s',
    find st "employee"
      (build_filter (Request.q r) (Request.department r) (Request.location r)
         (Request.isActive r) (Request.tags r)) (requested_limit r) s
    = (Returned docs, s')
    ∧ length (items resp) = length docs
    ∧ ∀ i d, docs !! i = Some d →
        ∃ item, items resp !! i = Some item
          ∧ item !! "id"
            = Some (VStr (py_str repr_str (default VNone (d !! "_id"))))
          ∧ item !! "_id" = None
          ∧ (∀ k, k ≠ "id" → k ≠ "_id" → item !! k = d !! k)
          ∧ dom item = {["id"]} ∪ dom d ∖ {["_id"]}.
Proof.
  intros (limit & docs & s' & Hq & Hf & ->)%run_route_success.
  apply Query_le_limit in Hq as [-> _]. fold (requested_limit r) in Hf.
  exists docs, s'. split; [done|]. split; [apply length_fmap|].
  intros i d Hd. exists (normalize repr_str d). cbn [items].
  split; [by rewrite list_lookup_fmap, Hd|].
  split; [by rewrite normalize_lookup|].
  split; [apply normalize_no_raw_id|]. split.
  - intros k H1 H2. rewrite normalize_lookup.
    by rewrite decide_False, decide_False.
  - unfold normalize. rewrite dom_delete_L, dom_insert_L.
    apply set_eq. intros k. rewrite !elem_of_union, !elem_of_difference,
      elem_of_union, !elem_of_singleton.
    split; [intros [[->|H] Hk]; [by left | by right] |].
    intros [->|[H Hk]]; (split; [auto | done]).
Qed.

Lemma items_follow_the_store_witness :
  let o := run Mongo.mem (GET_api_employees repr_plain (Some handle) no_params)
             seeded in
  result o = inr (body o)
  ∧ ∃ docs s',
      find Mongo.mem "employee" ∅ 200 seeded = (Returned docs, s')
      ∧ length (items (body o)) = length docs.
Proof.
  intros o.
  assert (result o = inr (body o)) as H by (vm_compute; reflexivity).
  split; [exact H|].
  destruct (items_follow_the_store repr_plain Mongo.mem (Some handle) no_params
              seeded _ H) as (docs & s' & Hf & Hlen & _).
  exists docs, s'. split; [exact Hf | exact Hlen].
Defined.

(** X3: the limit has no lower bound: every limit up to 500, zero and the
    negative ones included, passes the check and reaches the store's find
    as it is. *)
Theorem limit_has_no_lower_bound {S : Type} (repr_str : string → string)
    (st : store S) (h : Database) (r : Request.t) (s : S) (n : Z) :
  Request.limit r = Some n →
  n ≤ 500 →
  let fq := build_filter (Request.q r) (Request.department r)
              (Request.location r) (Request.isActive r) (Request.tags r) in
  trace (run st (GET_api_employees repr_str (Some h) r) s)
  = [EvFind "employee" fq n (find st "employee" fq n s).1].
Proof.
  intros Hl Hn fq. unfold GET_api_employees, Query_le. rewrite Hl.
  destruct (Z.leb_spec n 500); [|lia].
  rewrite run_list_employees. reflexivity.
Qed.

Lemma limit_has_no_lower_bound_witness :
  let r := {| Request.q := None; Request.department := None;
              Request.location := None; Request.isActive := None;
              Request.tags := None; Request.limit := Some (-3) |} in
  trace (run Mongo.mem (GET_api_employees repr_plain (Some handle) r) seeded)
  = [EvFind "employee" ∅ (-3) (find Mongo.mem "employee" ∅ (-3) seeded).1].
Proof.
  intros r.
  exact (limit_has_no_lower_bound repr_plain Mongo.mem handle r seeded (-3)
           eq_refl ltac:(discriminate)).
Defined.

(** *** Characters *)

Lemma take_chars_prefix (n : nat) (s : string) :
  ∃ rest, s = PyStr.take_chars n s +:+ rest.
Proof.
  revert n. induction s as [|c s IH]; intros n; [by exists ""|].
  cbn [PyStr.take_chars]. destruct (PyStr.continuation c).
  - destruct (IH n) as [rest Hr]. exists rest.
    change (String c (PyStr.take_chars n s) +:+ rest)
      with (String c (PyStr.take_chars n s +:+ rest)). by rewrite <- Hr.
  - destruct n as [|n]; [by exists (String c s)|].
    destruct (IH n) as [rest Hr]. exists rest.
    change (String c (PyStr.take_chars n s) +:+ rest)
      with (String c (PyStr.take_chars n s +:+ rest)). by rewrite <- Hr.
Qed.

Lemma take_chars_count (n : nat) (s : string) :
  (char_count (PyStr.take_chars n s) ≤ n)%nat.
Proof.
  revert n. induction s as [|c s IH]; intros n; [cbn; lia|].
  cbn [PyStr.take_chars]. destruct (PyStr.continuation c) eqn:E.
  - cbn [char_count]. rewrite E. apply IH.
  - destruct n as [|n]; [cbn; lia|]. cbn [char_count]. rewrite E.
    specialize (IH n). lia.
Qed.

Lemma take_chars_all (n : nat) (s : string) :
  (char_count s ≤ n)%nat → PyStr.take_chars n s = s.
Proof.
  revert n. induction s as [|c s IH]; intros n; [done|].
  cbn [PyStr.take_chars char_count]. destruct (PyStr.continuation c).
  - intros H. by rewrite IH.
  - destruct n as [|n]; [lia|]. intros H. rewrite IH; [done|lia].
Qed.

(** *** The diagnostic operation *)

Section Diagnostic.

Context {S : Type} (st : store S).

Lemma env_report_given (v : option string) :
  VStr (match given v with Some _ => "✅ Set" | None => "❌ Not Set" end)
  = env_report v.
Proof. by destruct v as [[|c s]|]. Qed.

(** X10: the diagnostic operation never fails: for every store, handle and
    environment it returns a body (status 200) with the same six keys, and
    calls the store once, for the names of the collections, when there is a
    handle and not at all when there is none. *)
Theorem test_database_always_answers (db : option Database)
    (getenv : string → option string) (s : S) :
  let o := run st (test_database db getenv) s in
  ∃ response,
    result o = inr response
    ∧ status (result o) = 200
    ∧ dom response = diagnostic_keys
    ∧ response !! "backend" = Some (VStr "✅ Running")
    ∧ trace o = match db with
                | Some _ => [EvNames (collection_names st s).1]
                | None => []
                end
    ∧ final o = match db with
                | Some _ => (collection_names st s).2
                | None => s
                end.
Proof.
  cbv zeta. destruct db as [h|]; cbn.
  - destruct (collection_names st s) as [[names|msg] s']; cbn;
      (eexists; split; [reflexivity|]); repeat split;
      rewrite ?dom_insert_L, ?dom_singleton_L, ?lookup_insert_ne by done;
      try done; unfold diagnostic_keys; set_solver.
  - (eexists; split; [reflexivity|]); repeat split;
      rewrite ?dom_insert_L, ?dom_singleton_L, ?lookup_insert_ne by done;
      try done; unfold diagnostic_keys; set_solver.
Qed.

(** X11: [database_url] and [database_name] of the diagnostic body say
    only whether the environment variables [DATABASE_URL] and
    [DATABASE_NAME] are set to a string that is not empty; what the handle
    is, and its [name], never shows there. *)
Theorem test_database_reports_environment (db : option Database)
    (getenv : string → option string) (s : S) :
  match result (run st (test_database db getenv) s) with
  | inr response =>
      response !! "database_url" = Some (env_report (getenv "DATABASE_URL"))
      ∧ response !! "database_name" = Some (env_report (getenv "DATABASE_NAME"))
  | inl _ => False
  end.
Proof.
  destruct db as [h|]; cbn.
  - destruct (collection_names st s) as [[names|msg] s']; cbn;
      rewrite lookup_insert_eq, lookup_insert_ne, lookup_insert_eq by done;
      by rewrite !env_report_given.
  - rewrite lookup_insert_eq, lookup_insert_ne, lookup_insert_eq by done.
    by rewrite !env_report_given.
Qed.

(** X12: when the store gives the names of its collections, the diagnostic
    body shows the first ten of them, in order (all of them when there are
    at most ten), and reports a working connection. *)
Theorem test_database_lists_ten_collections (h : Database)
    (getenv : string → option string) (s : S) (names : list string) :
  (collection_names st s).1 = Returned names →
  ∃ response shown,
    result (run st (test_database (Some h) getenv) s) = inr response
    ∧ response !! "collections" = Some (VList shown)
    ∧ shown = take 10 names
    ∧ (length shown ≤ 10)%nat
    ∧ shown `prefix_of` names
    ∧ ((length names ≤ 10)%nat → shown = names)
    ∧ response !! "database" = Some (VStr "✅ Connected & Working")
    ∧ response !! "connection_status" = Some (VStr "Connected").
Proof.
  intros Ha. cbn. destruct (collection_names st s) as [a s']. cbn in Ha.
  subst a. cbn. eexists _, (take 10 names). split; [reflexivity|].
  split; [by rewrite !lookup_insert_ne, lookup_insert_eq by done|].
  split; [done|]. split; [rewrite length_take; lia|].
  split; [apply prefix_take|]. split; [intros H; by apply take_ge|].
  split; by rewrite !lookup_insert_ne, lookup_insert_eq by done.
Qed.

(** X13: when the store raises on listing its collections, the diagnostic
    operation still answers with status 200: [database] is the text
    ["Connected but Error: "] followed by the first 50 characters of the
    message (the whole message when it has at most 50), [collections] stays
    empty and [connection_status] stays ["Connected"]. *)
Theorem test_database_truncates_store_error (h : Database)
    (getenv : string → option string) (s : S) (msg : string) :
  (collection_names st s).1 = Raised msg →
  ∃ response shown,
    result (run st (test_database (Some h) getenv) s) = inr response
    ∧ status (result (run st (test_database (Some h) getenv) s)) = 200
    ∧ response !! "database"
      = Some (VStr ("⚠️  Connected but Error: " +:+ shown))
    ∧ shown = PyStr.take_chars 50 msg
    ∧ (char_count shown ≤ 50)%nat
    ∧ (∃ rest, msg = shown +:+ rest)
    ∧ ((char_count msg ≤ 50)%nat → shown = msg)
    ∧ response !! "collections" = Some (VList [])
    ∧ response !! "connection_status" = Some (VStr "Connected").
Proof.
  intros Ha. cbn. destruct (collection_names st s) as [a s']. cbn in Ha.
  subst a. cbn. eexists _, (PyStr.take_chars 50 msg). split; [reflexivity|].
  split; [done|].
  split; [by rewrite !lookup_insert_ne, lookup_insert_eq by done|].
  split; [done|]. split; [apply take_chars_count|].
  split; [apply take_chars_prefix|]. split; [apply take_chars_all|].
  split; by rewrite !lookup_insert_ne, ?lookup_insert_eq by done.
Qed.

End Diagnostic.

Lemma test_database_lists_ten_collections_witness :
  (collection_names Mongo.mem seeded).1 = Returned ["employee"]
  ∧ ∃ response,
      result (run Mongo.mem (test_database (Some handle) (λ _, None)) seeded)
      = inr response
      ∧ response !! "collections" = Some (VList ["employee"]).
Proof.
  assert ((collection_names Mongo.mem seeded).1 = Returned ["employee"]) as H
    by (vm_compute; reflexivity).
  split; [exact H|].
  destruct (test_database_lists_ten_collections Mongo.mem handle (λ _, None)
              seeded ["employee"] H)
    as (response & shown & Hr & Hc & -> & _).
  exists response. split; [exact Hr | exact Hc].
Defined.

Lemma test_database_truncates_store_error_witness :
  (collection_names Mongo.scripted []).1 = Raised "no collection"
  ∧ ∃ response,
      result (run Mongo.scripted (test_database (Some handle) (λ _, None)) [])
      = inr response
      ∧ response !! "database"
        = Some (VStr "⚠️  Connected but Error: no collection").
Proof.
  assert ((collection_names Mongo.scripted []).1 = Raised "no collection") as H
    by reflexivity.
  split; [exact H|].
  destruct (test_database_truncates_store_error Mongo.scripted handle
              (λ _, None) [] "no collection" H)
    as (response & shown & Hr & _ & Hd & -> & _).
  exists response. split; [exact Hr | exact Hd].
Defined.

(** *** The list of tags *)

Lemma split_app (sep : ascii) (s1 s2 : string) :
  PyStr.split sep (s1 +:+ String sep s2)
  = PyStr.split sep s1 ++ PyStr.split sep s2.
Proof.
  induction s1 as [|c s1 IH].
  - change ("" +:+ String sep s2) with (String sep s2). cbn [PyStr.split].
    by rewrite Ascii.eqb_refl.
  - change (String c s1 +:+ String sep s2)
      with (String c (s1 +:+ String sep s2)).
    cbn [PyStr.split]. rewrite IH.
    destruct (Ascii.eqb c sep); [done|].
    pose proof (split_not_nil sep s1) as Hne.
    by destruct (PyStr.split sep s1).
Qed.

Lemma split_without_sep (sep : ascii) (p : string) :
  sep ∉ list_ascii_of_string p → PyStr.split sep p = [p].
Proof.
  induction p as [|c p IH]; [done|]. cbn [list_ascii_of_string PyStr.split].
  intros [Hc Hp]%not_elem_of_cons.
  destruct (Ascii.eqb_spec c sep) as [->|_]; [done|]. by rewrite IH.
Qed.

Lemma split_join (sep : ascii) (ps : list string) :
  ps ≠ [] →
  Forall (λ p, sep ∉ list_ascii_of_string p) ps →
  PyStr.split sep (PyStr.join (String sep "") ps) = ps.
Proof.
  induction ps as [|p ps IH]; [done|]. intros _ [Hp Hps]%Forall_cons.
  destruct ps as [|p' ps]; [by apply split_without_sep|].
  change (PyStr.join (String sep "") (p :: p' :: ps))
    with (p +:+ String sep (PyStr.join (String sep "") (p' :: ps))).
  rewrite split_app, split_without_sep, IH by done. done.
Qed.

Lemma list_ascii_of_string_app (s t : string) :
  list_ascii_of_string (s +:+ t)
  = list_ascii_of_string s ++ list_ascii_of_string t.
Proof.
  induction s as [|c s IH]; [done|].
  change (String c s +:+ t) with (String c (s +:+ t)). cbn. by rewrite IH.
Qed.

Lemma lstrip_fixed (t : string) :
  PyStr.leading_space t = false → PyStr.lstrip t = t.
Proof.
  destruct t as [|a [|b [|c t]]]; cbn [PyStr.leading_space PyStr.lstrip];
    [done|..].
  - by intros ->.
  - intros [-> ->]%orb_false_iff. done.
  - intros [[-> ->]%orb_false_iff ->]%orb_false_iff. done.
Qed.

Lemma lstrip_rev_fixed (t : string) :
  PyStr.leading_space_rev t = false → PyStr.lstrip_rev t = t.
Proof.
  destruct t as [|a [|b [|c t]]];
    cbn [PyStr.leading_space_rev PyStr.lstrip_rev]; [done|..].
  - by intros ->.
  - intros [-> ->]%orb_false_iff. done.
  - intros [[-> ->]%orb_false_iff ->]%orb_false_iff. done.
Qed.

Lemma strip_fixed (t : string) :
  PyStr.leading_space t = false → PyStr.trailing_space t = false →
  PyStr.strip t = t.
Proof.
  intros Hl Hr. unfold PyStr.strip, PyStr.rstrip. rewrite (lstrip_fixed t Hl).
  unfold PyStr.trailing_space in Hr. rewrite (lstrip_rev_fixed _ Hr).
  apply string_rev_involutive.
Qed.

(** Each tag of the list is trimmed, not empty and has no comma. *)
Lemma tag_list_pieces (tags t : string) :
  t ∈ tag_list tags →
  PyStr.strip t = t ∧ t ≠ "" ∧ ","%char ∉ list_ascii_of_string t.
Proof.
  rewrite tag_list_filter.
  intros [Ht (p & -> & Hp)%list_elem_of_fmap]%list_elem_of_filter.
  destruct (strip_spec p) as (Hl & Hr & l & r & Hlr).
  split; [by apply strip_fixed|]. split; [done|].
  pose proof (split_no_sep "," tags) as Hall. rewrite Forall_forall in Hall.
  specialize (Hall p Hp). rewrite Hlr, !list_ascii_of_string_app in Hall.
  intros Hin. apply Hall. rewrite !elem_of_app. auto.
Qed.

Lemma tag_list_of_pieces (ps : list string) :
  Forall (λ t, PyStr.strip t = t ∧ t ≠ "") ps →
  omap (λ t, if PyStr.truthy (PyStr.strip t) then Some (PyStr.strip t) else None)
       ps = ps.
Proof.
  induction ps as [|p ps IH]; [done|]. intros [[Hs Hp] Hps]%Forall_cons.
  cbn [omap list_omap]. rewrite Hs.
  destruct p as [|c p]; [done|]. cbn. by rewrite IH.
Qed.

(** X8: the tags of two parts joined by a comma are the tags of the first
    part followed by the tags of the second. *)
Theorem tag_list_of_two_parts (s1 s2 : string) :
  tag_list (s1 +:+ "," +:+ s2) = tag_list s1 ++ tag_list s2.
Proof.
  unfold tag_list. change ("," +:+ s2) with (String "," s2).
  rewrite split_app. apply omap_app.
Qed.

(** X9: writing the list of tags with commas and reading it again gives the
    same list: each tag is trimmed, not empty and without a comma, so
    splitting the joined tags gives them back as they are. *)
Theorem tag_list_round_trip (tags : string) :
  tag_list (PyStr.join "," (tag_list tags)) = tag_list tags
  ∧ (tag_list tags ≠ [] →
     PyStr.split "," (PyStr.join "," (tag_list tags)) = tag_list tags).
Proof.
  assert (Forall (λ t, PyStr.strip t = t ∧ t ≠ ""
                       ∧ ","%char ∉ list_ascii_of_string t) (tag_list tags))
    as Hall.
  { apply Forall_forall. intros t Ht. by apply tag_list_pieces in Ht. }
  destruct (tag_list tags) as [|p ps] eqn:E; [done|].
  assert (PyStr.split "," (PyStr.join "," (p :: ps)) = p :: ps) as Hsplit.
  { apply (split_join ","); [done|].
    eapply Forall_impl; [exact Hall|]. by intros t (_ & _ & H). }
  split; [|done]. unfold tag_list at 1. rewrite Hsplit.
  apply tag_list_of_pieces. eapply Forall_impl; [exact Hall|].
  by intros t (H1 & H2 & _).
Qed.
